(** * Mergington High School activities API (src/app.py)

    A shallow embedding of the FastAPI application: the two SQLite tables,
    the connection-per-request context manager [get_db] with its
    commit/rollback behaviour, the seeding routine [init_db] and the four
    request handlers, followed by the properties of the service. *)

From Stdlib Require Import ZArith.
From stdpp Require Import base option list strings gmap.

Local Open Scope string_scope.
Local Open Scope Z_scope.

(** ** Data model *)

(** A row of table [activities]
    (name TEXT PRIMARY KEY, description TEXT, schedule TEXT,
     max_participants INTEGER). *)
Record activity_row : Type := ActivityRow {
  name : string;
  description : string;
  schedule : string;
  max_participants : Z
}.

(** A row of table [participants]
    (activity_name TEXT, email TEXT, PRIMARY KEY (activity_name, email)). *)
Record participant_row : Type := ParticipantRow {
  activity_name : string;
  email : string
}.

Global Instance activity_row_eq_dec : EqDecision activity_row.
Proof. solve_decision. Defined.

Global Instance participant_row_eq_dec : EqDecision participant_row.
Proof. solve_decision. Defined.

(** The database once its schema exists: both tables, rows in storage
    order. *)
Record db : Type := Db {
  activities : list activity_row;
  participants : list participant_row
}.

(** The database file as [init_db] may find it: a table is either absent
    or present with its rows. *)
Record db_file : Type := DbFile {
  activities_table : option (list activity_row);
  participants_table : option (list participant_row)
}.

Definition empty_file : db_file :=
  {| activities_table := None; participants_table := None |}.

Definition stored (d : db) : db_file :=
  {| activities_table := Some (activities d);
     participants_table := Some (participants d) |}.

(** The dictionaries with keys "description", "schedule",
    "max_participants" and "participants": the values of
    [INITIAL_ACTIVITIES] and of the mapping [get_activities] returns. *)
Module Details.
Record t : Type := Make {
  description : string;
  schedule : string;
  max_participants : Z;
  participants : list string
}.
End Details.

(** What a handler can raise: FastAPI's [HTTPException], sqlite3's
    [IntegrityError] (a PRIMARY KEY violated by an INSERT) and Python's
    [KeyError]. *)
Inductive exn : Type :=
  | HTTPException (status_code : Z) (detail : string)
  | IntegrityError (constraint : string)
  | KeyError (key : string).

(** ** Connections *)

(** An open sqlite3 connection: [disk] is the committed content of the
    file, [txn] what the statements of this connection see and change. *)
Record conn : Type := Conn {
  disk : db;
  txn : db
}.

(** Code running on a connection: it may raise, and it changes the
    connection. *)
Definition sql (A : Type) : Type := conn → (exn + A) * conn.

Definition ret {A} (x : A) : sql A := λ c, (inr x, c).

Definition raise {A} (x : exn) : sql A := λ c, (inl x, c).

Definition bind {A B} (m : sql A) (k : A → sql B) : sql B :=
  λ c, match m c with
       | (inl x, c') => (inl x, c')
       | (inr a, c') => k a c'
       end.

Notation "x <- m ;; k" := (bind m (λ x, k))
  (at level 100, m at next level, right associativity).
Notation "m ;;; k" := (bind m (λ _, k))
  (at level 100, right associativity).

(** [for x in l: body(x)] *)
Fixpoint for_each {A} (l : list A) (body : A → sql unit) : sql unit :=
  match l with
  | [] => ret tt
  | x :: l' => body x ;;; for_each l' body
  end.

(** [with get_db() as conn: body]: a connection is opened on the file,
    and closed when the body returns or raises; closing drops what was
    not committed. *)
Definition get_db {A} (body : sql A) (d : db) : (exn + A) * db :=
  let '(r, c) := body {| disk := d; txn := d |} in (r, disk c).

(** [conn.commit()] *)
Definition commit : sql unit :=
  λ c, (inr tt, {| disk := txn c; txn := txn c |}).

(** ** Statements *)

(** SELECT max_participants FROM activities WHERE name = ?, then
    [fetchone()]: the first row found, or [None]. *)
Definition select_max_participants (n : string) : sql (option Z) :=
  λ c, (inr (max_participants <$>
             List.find (λ r, bool_decide (name r = n)) (activities (txn c))), c).

(** SELECT 1 FROM activities WHERE name = ?, then [fetchone()]. *)
Definition select_activity_exists (n : string) : sql (option Z) :=
  λ c, (inr ((λ _, 1) <$>
             List.find (λ r, bool_decide (name r = n)) (activities (txn c))), c).

(** SELECT * FROM activities *)
Definition select_all_activities : sql (list activity_row) :=
  λ c, (inr (activities (txn c)), c).

(** SELECT COUNT( * ) FROM activities, then [fetchone()[0]]. *)
Definition count_activities : sql Z :=
  λ c, (inr (Z.of_nat (length (activities (txn c)))), c).

(** The rows of [participants] with a given activity_name. *)
Definition participants_of (n : string) (ps : list participant_row)
  : list participant_row :=
  filter (λ p, activity_name p = n) ps.

(** SELECT COUNT( * ) FROM participants WHERE activity_name = ?, then
    [fetchone()[0]]. *)
Definition count_participants (n : string) : sql Z :=
  λ c, (inr (Z.of_nat (length (participants_of n (participants (txn c))))), c).

(** SELECT 1 FROM participants WHERE activity_name = ? AND email = ?, then
    [fetchone()]. *)
Definition select_participant_exists (n e : string) : sql (option Z) :=
  λ c, (inr ((λ _, 1) <$>
             List.find (λ p, bool_decide (p = ParticipantRow n e))
                       (participants (txn c))), c).

(** SELECT activity_name, email FROM participants *)
Definition select_all_participants : sql (list participant_row) :=
  λ c, (inr (participants (txn c)), c).

(** INSERT INTO activities (...) VALUES (?, ?, ?, ?): refused when the
    primary key [name] is taken. *)
Definition insert_activity (row : activity_row) : sql unit :=
  λ c, if bool_decide (name row ∈ name <$> activities (txn c))
       then (inl (IntegrityError "UNIQUE constraint failed: activities.name"), c)
       else (inr tt,
             {| disk := disk c;
                txn := {| activities := activities (txn c) ++ [row];
                          participants := participants (txn c) |} |}).

(** INSERT INTO participants (activity_name, email) VALUES (?, ?): refused
    when the primary key (activity_name, email) is taken. *)
Definition insert_participant (row : participant_row) : sql unit :=
  λ c, if bool_decide (row ∈ participants (txn c))
       then (inl (IntegrityError
              "UNIQUE constraint failed: participants.activity_name, participants.email"), c)
       else (inr tt,
             {| disk := disk c;
                txn := {| activities := activities (txn c);
                          participants := participants (txn c) ++ [row] |} |}).

(** DELETE FROM participants WHERE activity_name = ? AND email = ?; the
    result is [cursor.rowcount]. *)
Definition delete_participant (n e : string) : sql Z :=
  λ c, let kept := filter (λ p, p ≠ ParticipantRow n e) (participants (txn c)) in
       (inr (Z.of_nat (length (participants (txn c))) - Z.of_nat (length kept)),
        {| disk := disk c;
           txn := {| activities := activities (txn c); participants := kept |} |}).

(** ** The application *)

(** [INITIAL_ACTIVITIES], in the order of the dictionary literal. *)
Definition INITIAL_ACTIVITIES : list (string * Details.t) :=
  [ ("Chess Club",
     Details.Make "Learn strategies and compete in chess tournaments"
       "Fridays, 3:30 PM - 5:00 PM" 12
       ["michael@mergington.edu"; "daniel@mergington.edu"]);
    ("Programming Class",
     Details.Make "Learn programming fundamentals and build software projects"
       "Tuesdays and Thursdays, 3:30 PM - 4:30 PM" 20
       ["emma@mergington.edu"; "sophia@mergington.edu"]);
    ("Gym Class",
     Details.Make "Physical education and sports activities"
       "Mondays, Wednesdays, Fridays, 2:00 PM - 3:00 PM" 30
       ["john@mergington.edu"; "olivia@mergington.edu"]);
    ("Soccer Team",
     Details.Make "Join the school soccer team and compete in local leagues"
       "Tuesdays and Thursdays, 4:00 PM - 5:30 PM" 18
       ["lucas@mergington.edu"; "mia@mergington.edu"]);
    ("Basketball Club",
     Details.Make "Practice basketball skills and play friendly matches"
       "Wednesdays, 3:30 PM - 5:00 PM" 15
       ["liam@mergington.edu"; "ava@mergington.edu"]);
    ("Drama Club",
     Details.Make "Participate in school plays and improve acting skills"
       "Mondays, 4:00 PM - 5:30 PM" 20
       ["noah@mergington.edu"; "isabella@mergington.edu"]);
    ("Art Workshop",
     Details.Make "Explore painting, drawing, and other visual arts"
       "Fridays, 2:00 PM - 3:30 PM" 16
       ["amelia@mergington.edu"; "benjamin@mergington.edu"]);
    ("Math Olympiad",
     Details.Make "Prepare for math competitions and solve challenging problems"
       "Thursdays, 3:30 PM - 5:00 PM" 10
       ["charlotte@mergington.edu"; "jack@mergington.edu"]);
    ("Debate Team",
     Details.Make "Develop public speaking and argumentation skills"
       "Wednesdays, 4:00 PM - 5:30 PM" 12
       ["harper@mergington.edu"; "elijah@mergington.edu"]) ].

(** CREATE TABLE IF NOT EXISTS: an absent table is created empty, a
    present one is left as it is. The statement is not part of a
    transaction, it reaches the file at once. *)
Definition create_table_if_not_exists {A} (t : option (list A)) : list A :=
  default [] t.

(** Body of the loop over [INITIAL_ACTIVITIES.items()]: the activity, then
    its participants. *)
Definition populate_item (item : string * Details.t) : sql unit :=
  let '(name, details) := item in
  insert_activity
    (ActivityRow name (Details.description details)
       (Details.schedule details) (Details.max_participants details)) ;;;
  for_each (Details.participants details) (λ email,
    insert_participant (ParticipantRow name email)).

(** The part of [init_db] after the two CREATE TABLE statements. *)
Definition populate : sql unit :=
  n <- count_activities ;;
  if bool_decide (n = 0) then
    for_each INITIAL_ACTIVITIES populate_item ;;;
    commit
  else ret tt.

Definition init_db (f : db_file) : (exn + unit) * db :=
  get_db populate
    {| activities := create_table_if_not_exists (activities_table f);
       participants := create_table_if_not_exists (participants_table f) |}.

(** Starlette's response object, as far as [root] fills it. *)
Record response : Type := Response {
  status_code : Z;
  location : string
}.

(** [RedirectResponse.__init__(self, url, status_code: int = 307, ...)] of
    Starlette (starlette/responses.py): the location header is the url,
    the status code is the caller's or the declared default. The url
    quoting leaves "/static/index.html" as it is. *)
Definition RedirectResponse (url : string) (status : option Z) : response :=
  {| status_code := default 307 status; location := url |}.

(** GET / *)
Definition root : response := RedirectResponse "/static/index.html" None.

(** First loop of [get_activities]: one entry per row, an empty list of
    participants in each. *)
Fixpoint collect_activities (rows : list activity_row)
    (acts : gmap string Details.t) : gmap string Details.t :=
  match rows with
  | [] => acts
  | row :: rows' =>
      collect_activities rows'
        (<[name row := Details.Make (description row) (schedule row)
                          (max_participants row) []]> acts)
  end.

(** Second loop of [get_activities]: the email is appended to the list of
    the entry of its activity; a missing key raises [KeyError]. *)
Fixpoint collect_participants (rows : list participant_row)
    (acts : gmap string Details.t) : exn + gmap string Details.t :=
  match rows with
  | [] => inr acts
  | row :: rows' =>
      match acts !! activity_name row with
      | None => inl (KeyError (activity_name row))
      | Some d =>
          collect_participants rows'
            (<[activity_name row :=
                 Details.Make (Details.description d) (Details.schedule d)
                   (Details.max_participants d)
                   (Details.participants d ++ [email row])]> acts)
      end
  end.

(** GET /activities *)
Definition get_activities : db → (exn + gmap string Details.t) * db :=
  get_db (
    rows <- select_all_activities ;;
    let acts := collect_activities rows ∅ in
    rows <- select_all_participants ;;
    match collect_participants rows acts with
    | inl x => raise x
    | inr acts => ret acts
    end).

(** The body [{"message": ...}] of a successful answer. *)
Record body : Type := Body { message : string }.

(** POST /activities/{activity_name}/signup *)
Definition signup_for_activity (activity_name email : string)
  : db → (exn + body) * db :=
  get_db (
    activity <- select_max_participants activity_name ;;
    match activity with
    | None => raise (HTTPException 404 "Activity not found")
    | Some activity_max_participants =>
        current_participants <- count_participants activity_name ;;
        if bool_decide (current_participants >= activity_max_participants) then
          raise (HTTPException 400 "Activity is full")
        else
          registered <- select_participant_exists activity_name email ;;
          match registered with
          | Some _ =>
              raise (HTTPException 400 "Already registered for this activity")
          | None =>
              insert_participant (ParticipantRow activity_name email) ;;;
              commit ;;;
              ret (Body ("Successfully signed up for " +:+ activity_name))
          end
    end).

(** DELETE /activities/{activity_name}/unregister *)
Definition unregister_from_activity (activity_name email : string)
  : db → (exn + body) * db :=
  get_db (
    activity <- select_activity_exists activity_name ;;
    match activity with
    | None => raise (HTTPException 404 "Activity not found")
    | Some _ =>
        rowcount <- delete_participant activity_name email ;;
        if bool_decide (rowcount = 0) then
          raise (HTTPException 404 "Participant not found")
        else
          commit ;;;
          ret (Body ("Successfully unregistered from " +:+ activity_name))
    end).

(** ** States of the service *)

(** The store after the first start on a fresh file. *)
Definition seeded : db := (init_db empty_file).2.

(** The states the service goes through: the seeded store, and from there
    any request, successful or not, and any restart of the process. *)
Inductive reachable : db → Prop :=
  | reachable_seeded : reachable seeded
  | reachable_signup s a e :
      reachable s → reachable (signup_for_activity a e s).2
  | reachable_unregister s a e :
      reachable s → reachable (unregister_from_activity a e s).2
  | reachable_get_activities s :
      reachable s → reachable (get_activities s).2
  | reachable_init_db s :
      reachable s → reachable (init_db (stored s)).2.

(** Number of memberships of an activity. *)
Definition membership_count (s : db) (n : string) : Z :=
  Z.of_nat (length (participants_of n (participants s))).

(** PRIMARY KEY of [activities]: names are unique. *)
Definition pk_activities (s : db) : Prop := NoDup (name <$> activities s).

(** PRIMARY KEY of [participants]: pairs are unique. *)
Definition pk_participants (s : db) : Prop := NoDup (participants s).

(** FOREIGN KEY of [participants]: the activity of every membership
    exists. *)
Definition fk_participants (s : db) : Prop :=
  ∀ p, p ∈ participants s → ∃ r, r ∈ activities s ∧ name r = activity_name p.

(** No activity has more memberships than places. *)
Definition within_capacity (s : db) : Prop :=
  ∀ r, r ∈ activities s → membership_count s (name r) ≤ max_participants r.

Definition has_activity (s : db) (n : string) : Prop :=
  ∃ r, r ∈ activities s ∧ name r = n.

(** What holds of the store in every state of the service. *)
Record invariant (s : db) : Prop := Invariant {
  inv_seeded : activities s ≠ [];
  inv_pk_activities : pk_activities s;
  inv_pk_participants : pk_participants s;
  inv_fk_participants : fk_participants s;
  inv_capacity : within_capacity s
}.

(** The entry the first loop of [get_activities] writes for a row. *)
Definition entry_of (r : activity_row) : Details.t :=
  Details.Make (description r) (schedule r) (max_participants r) [].

(** An entry with emails appended to its participants. *)
Definition with_emails (es : list string) (d : Details.t) : Details.t :=
  Details.Make (Details.description d) (Details.schedule d)
    (Details.max_participants d) (Details.participants d ++ es).

(** ** Sample states *)

(** One signup after the other for the same activity, whatever each one
    answers. *)
Definition signups (a : string) (emails : list string) (s : db) : db :=
  foldl (λ s e, (signup_for_activity a e s).2) s emails.

(** "Math Olympiad" (10 places, 2 taken by the seed) with 9 places taken. *)
Definition olympiad_one_left : db :=
  signups "Math Olympiad"
    ["s3@mergington.edu"; "s4@mergington.edu"; "s5@mergington.edu";
     "s6@mergington.edu"; "s7@mergington.edu"; "s8@mergington.edu";
     "s9@mergington.edu"] seeded.

(** "Math Olympiad" with its 10 places taken. *)
Definition olympiad_full : db :=
  (signup_for_activity "Math Olympiad" "s10@mergington.edu" olympiad_one_left).2.

Definition olympiad : activity_row :=
  ActivityRow "Math Olympiad"
    "Prepare for math competitions and solve challenging problems"
    "Thursdays, 3:30 PM - 5:00 PM" 10.

Definition chess : activity_row :=
  ActivityRow "Chess Club" "Learn strategies and compete in chess tournaments"
    "Fridays, 3:30 PM - 5:00 PM" 12.

(** ** The seed as rows *)

(** The rows of [activities] that the loop of [init_db] inserts for a list
    of items, in order. *)
Definition activity_rows_of (items : list (string * Details.t)) : list activity_row :=
  (λ item, ActivityRow item.1 (Details.description item.2)
             (Details.schedule item.2) (Details.max_participants item.2))
  <$> items.

(** The rows of [participants] that the loop of [init_db] inserts for a
    list of items, in order. *)
Definition participant_rows_of (items : list (string * Details.t))
  : list participant_row :=
  concat ((λ item, ParticipantRow item.1 <$> Details.participants item.2)
          <$> items).

(** The store the CREATE TABLE statements of [init_db] leave, before
    [populate]. *)
Definition created (f : db_file) : db :=
  {| activities := create_table_if_not_exists (activities_table f);
     participants := create_table_if_not_exists (participants_table f) |}.

(** A file left with an empty [activities] table and one membership of the
    seed. *)
Definition leftover_file : db_file :=
  {| activities_table := Some [];
     participants_table :=
       Some [ParticipantRow "Gym Class" "john@mergington.edu"] |}.

(** A file left with an empty [activities] table and one membership that
    the seed does not have. *)
Definition stale_file : db_file :=
  {| activities_table := Some [];
     participants_table :=
       Some [ParticipantRow "Chess Club" "old@mergington.edu"] |}.

(** A store no request produces: a membership of an unknown activity. *)
Definition dangling_store : db :=
  {| activities := [chess];
     participants := [ParticipantRow "Chess Club" "michael@mergington.edu";
                      ParticipantRow "Unknown Club" "x@mergington.edu"] |}.

(** ** Statements on lists of rows *)

Section Rows.

Implicit Types (acts : list activity_row) (ps : list participant_row).

Lemma find_activity_None acts n :
  List.find (λ r, bool_decide (name r = n)) acts = None ↔
  ¬ ∃ r, r ∈ acts ∧ name r = n.
Proof.
  induction acts as [|r acts IH]; simpl.
  - split; [|done]. intros _ (r & Hr & _). by apply elem_of_nil in Hr.
  - case_bool_decide as Hn.
    + split; [done|]. intros H. exfalso. apply H. exists r. split; [left|done].
    + rewrite IH. split; intros H (r' & Hr' & Hn').
      * apply elem_of_cons in Hr' as [->|Hr']; [done|]. apply H. eauto.
      * apply H. exists r'. split; [by right|done].
Qed.

Lemma find_activity_Some acts n r :
  List.find (λ r, bool_decide (name r = n)) acts = Some r →
  r ∈ acts ∧ name r = n.
Proof.
  intros H. apply find_some in H as [Hin Hn].
  split; [by apply list_elem_of_In|]. by apply bool_decide_eq_true in Hn.
Qed.

Lemma find_activity_unique acts r :
  NoDup (name <$> acts) → r ∈ acts →
  List.find (λ r', bool_decide (name r' = name r)) acts = Some r.
Proof.
  induction acts as [|r0 acts IH]; simpl; intros Hnd Hin.
  - by apply elem_of_nil in Hin.
  - apply NoDup_cons in Hnd as [Hfresh Hnd].
    apply elem_of_cons in Hin as [->|Hin].
    + by rewrite bool_decide_eq_true_2.
    + rewrite bool_decide_eq_false_2; [by apply IH|].
      intros Heq. apply Hfresh. rewrite Heq. by apply list_elem_of_fmap_2.
Qed.

Lemma find_participant_None ps row :
  List.find (λ p, bool_decide (p = row)) ps = None ↔ row ∉ ps.
Proof.
  induction ps as [|p ps IH]; simpl.
  - split; [|done]. intros _ H. by apply elem_of_nil in H.
  - case_bool_decide as Hp.
    + subst p. split; [done|]. intros H. exfalso. apply H. left.
    + rewrite IH, not_elem_of_cons.
      split; [intros H; split; [congruence|done] | by intros [_ H]].
Qed.

Lemma find_participant_Some ps row p :
  List.find (λ p, bool_decide (p = row)) ps = Some p → row ∈ ps.
Proof.
  intros H. apply find_some in H as [Hin Hp].
  apply bool_decide_eq_true in Hp as <-. by apply list_elem_of_In.
Qed.

(** [rowcount] of the DELETE is 0 exactly when the row was not there. *)
Lemma rowcount_zero ps row :
  Z.of_nat (length ps) - Z.of_nat (length (filter (λ p, p ≠ row) ps)) = 0 ↔
  row ∉ ps.
Proof.
  induction ps as [|p ps IH].
  - simpl. split; [|done]. intros _ H. by apply elem_of_nil in H.
  - pose proof (length_filter (λ p, p ≠ row) ps) as Hle.
    rewrite not_elem_of_cons. destruct (decide (p = row)) as [->|Hp].
    + rewrite filter_cons_False by (intros H; by apply H).
      simpl length. split; [lia|]. by intros [? _].
    + rewrite filter_cons_True by done. simpl length.
      split.
      * intros H. split; [done|]. apply IH. lia.
      * intros [_ H]. apply IH in H. lia.
Qed.

Lemma filter_other_id ps row :
  row ∉ ps → filter (λ p, p ≠ row) ps = ps.
Proof.
  induction ps as [|p ps IH]; [done|].
  rewrite not_elem_of_cons. intros [Hp Hps].
  rewrite filter_cons_True by done. by rewrite IH.
Qed.

Lemma participants_of_app n ps ps' :
  participants_of n (ps ++ ps') =
  (participants_of n ps ++ participants_of n ps')%list.
Proof. apply filter_app. Qed.

Lemma participants_of_delete_le n ps row :
  (length (participants_of n (filter (λ p, p ≠ row) ps)) ≤
   length (participants_of n ps))%nat.
Proof.
  unfold participants_of. induction ps as [|p ps IH]; [done|].
  destruct (decide (p = row)) as [->|Hp].
  - rewrite (filter_cons_False (λ p, p ≠ row)) by (intros H; by apply H).
    destruct (decide (activity_name row = n)).
    + rewrite (filter_cons_True (λ p, activity_name p = n)) by done.
      simpl. lia.
    + by rewrite (filter_cons_False (λ p, activity_name p = n)).
  - rewrite (filter_cons_True (λ p, p ≠ row)) by done.
    destruct (decide (activity_name p = n)).
    + rewrite !(filter_cons_True (λ p, activity_name p = n)) by done.
      simpl. lia.
    + by rewrite !(filter_cons_False (λ p, activity_name p = n)).
Qed.

End Rows.

(** ** What the handlers compute *)

(** [signup_for_activity] as a decision table on the store. *)
Lemma signup_run a e s :
  signup_for_activity a e s =
  match List.find (λ r, bool_decide (name r = a)) (activities s) with
  | None => (inl (HTTPException 404 "Activity not found"), s)
  | Some r =>
      if bool_decide (max_participants r ≤ membership_count s a) then
        (inl (HTTPException 400 "Activity is full"), s)
      else if bool_decide (ParticipantRow a e ∈ participants s) then
        (inl (HTTPException 400 "Already registered for this activity"), s)
      else
        (inr (Body ("Successfully signed up for " +:+ a)),
         {| activities := activities s;
            participants := participants s ++ [ParticipantRow a e] |})
  end.
Proof.
  unfold signup_for_activity, get_db, bind, select_max_participants; simpl.
  destruct (List.find _ (activities s)) as [r|]; [|done].
  unfold count_participants, membership_count; simpl.
  case_bool_decide as Hfull.
  - rewrite bool_decide_eq_true_2 by lia. done.
  - rewrite bool_decide_eq_false_2 by lia.
    unfold select_participant_exists; simpl.
    destruct (List.find _ (participants s)) as [p|] eqn:Hfind.
    + apply find_participant_Some in Hfind.
      by rewrite bool_decide_eq_true_2.
    + apply find_participant_None in Hfind.
      rewrite bool_decide_eq_false_2 by done.
      unfold insert_participant; simpl.
      by rewrite bool_decide_eq_false_2.
Qed.

(** [unregister_from_activity] as a decision table on the store. *)
Lemma unregister_run a e s :
  unregister_from_activity a e s =
  match List.find (λ r, bool_decide (name r = a)) (activities s) with
  | None => (inl (HTTPException 404 "Activity not found"), s)
  | Some _ =>
      if bool_decide (ParticipantRow a e ∈ participants s) then
        (inr (Body ("Successfully unregistered from " +:+ a)),
         {| activities := activities s;
            participants :=
              filter (λ p, p ≠ ParticipantRow a e) (participants s) |})
      else
        (inl (HTTPException 404 "Participant not found"), s)
  end.
Proof.
  unfold unregister_from_activity, get_db, bind, select_activity_exists; simpl.
  destruct (List.find _ (activities s)) as [r|]; [|done].
  unfold delete_participant; simpl.
  case_bool_decide as Hzero.
  - apply rowcount_zero in Hzero. by rewrite bool_decide_eq_false_2.
  - rewrite bool_decide_eq_true_2; [done|].
    destruct (decide (ParticipantRow a e ∈ participants s)) as [|Hn]; [done|].
    by apply rowcount_zero in Hn.
Qed.

(** ** Seeding *)

Section Loops.

Context {A : Type} (I : conn → Prop) (body : A → sql unit).

(** A property of the connection that every iteration keeps, whether it
    returns or raises, is kept by the loop. *)
Lemma for_each_preserves l :
  (∀ x c, I c → I (body x c).2) → ∀ c, I c → I (for_each l body c).2.
Proof.
  intros Hbody. induction l as [|x l IH]; intros c Hc; [done|].
  simpl. unfold bind. specialize (Hbody x c Hc).
  destruct (body x c) as [[e|[]] c']; [done|]. by apply IH.
Qed.

End Loops.

Lemma insert_activity_disk row c : disk (insert_activity row c).2 = disk c.
Proof. unfold insert_activity. by case_bool_decide. Qed.

Lemma insert_participant_disk row c : disk (insert_participant row c).2 = disk c.
Proof. unfold insert_participant. by case_bool_decide. Qed.

Lemma insert_participant_activities row c :
  activities (txn (insert_participant row c).2) = activities (txn c).
Proof. unfold insert_participant. by case_bool_decide. Qed.

Lemma populate_item_disk d item c : disk c = d → disk (populate_item item c).2 = d.
Proof.
  intros Hc. destruct item as [n details]. unfold populate_item, bind.
  pose proof (insert_activity_disk
    (ActivityRow n (Details.description details) (Details.schedule details)
       (Details.max_participants details)) c) as Hd.
  destruct (insert_activity _ c) as [[e|[]] c']; simpl in *; [congruence|].
  apply (for_each_preserves (λ c, disk c = d)); [|congruence].
  intros email c1 Hc1. by rewrite insert_participant_disk.
Qed.

(** An iteration that returns leaves a row in [activities]; once there is
    one, later iterations keep it. *)
Lemma populate_item_nonempty item c :
  (populate_item item c).1 = inr tt ∨ activities (txn c) ≠ [] →
  activities (txn (populate_item item c).2) ≠ [].
Proof.
  destruct item as [n details]. unfold populate_item, bind, insert_activity.
  assert (Hkeep : ∀ c1, activities (txn c1) ≠ [] →
    activities (txn (for_each (Details.participants details)
      (λ email, insert_participant (ParticipantRow n email)) c1).2) ≠ []).
  { intros c1. apply (for_each_preserves (λ c, activities (txn c) ≠ [])).
    intros email c2. by rewrite insert_participant_activities. }
  case_bool_decide; simpl.
  - intros [?|?]; done.
  - intros _. apply Hkeep. simpl. by destruct (activities (txn c)).
Qed.

Lemma populate_loop_nonempty items c :
  items ≠ [] →
  (for_each items populate_item c).1 = inr tt →
  activities (txn (for_each items populate_item c).2) ≠ [].
Proof.
  destruct items as [|item items]; [done|]. intros _. simpl. unfold bind.
  pose proof (populate_item_nonempty item c) as Hfirst.
  destruct (populate_item item c) as [[e|[]] c']; simpl in *; [done|].
  intros _. apply (for_each_preserves (λ c, activities (txn c) ≠ [])).
  - intros x c1 Hc1. apply populate_item_nonempty. by right.
  - apply Hfirst. by left.
Qed.

Lemma populate_unfold c :
  populate c =
  if bool_decide (Z.of_nat (length (activities (txn c))) = 0) then
    match for_each INITIAL_ACTIVITIES populate_item c with
    | (inl e, c') => (inl e, c')
    | (inr _, c') => (inr tt, {| disk := txn c'; txn := txn c' |})
    end
  else (inr tt, c).
Proof.
  unfold populate, bind, count_activities. by case_bool_decide.
Qed.

(** [populate] on a store that has activities does nothing. *)
Lemma populate_nonempty d :
  activities d ≠ [] → get_db populate d = (inr tt, d).
Proof.
  intros Hne. unfold get_db. rewrite populate_unfold. cbn [txn disk].
  destruct (activities d) as [|r acts] eqn:Hacts; [done|].
  rewrite bool_decide_eq_false_2; [done|]. cbn [length]. lia.
Qed.

(** [populate] on a store without activities: either an insert is refused
    and nothing is committed, or the store has activities afterwards. *)
Lemma populate_empty d :
  activities d = [] →
  (∃ e, get_db populate d = (inl e, d)) ∨
  (∃ d', get_db populate d = (inr tt, d') ∧ activities d' ≠ []).
Proof.
  intros Hacts. unfold get_db. rewrite populate_unfold. cbn [txn disk].
  rewrite Hacts. rewrite bool_decide_eq_true_2 by done.
  set (c0 := {| disk := d; txn := d |}).
  pose proof (for_each_preserves (λ c, disk c = d) populate_item
    INITIAL_ACTIVITIES (λ x c, populate_item_disk d x c) c0 eq_refl) as Hdisk.
  pose proof (populate_loop_nonempty INITIAL_ACTIVITIES c0) as Hne.
  destruct (for_each INITIAL_ACTIVITIES populate_item c0) as [[e|[]] c1];
    cbn [fst snd disk txn] in *.
  - left. exists e. by rewrite Hdisk.
  - right. eexists. split; [done|]. by apply Hne.
Qed.

Lemma init_db_stored_nonempty s :
  activities s ≠ [] → init_db (stored s) = (inr tt, s).
Proof.
  intros Hne. unfold init_db, stored; simpl.
  destruct s as [acts ps]. by apply populate_nonempty.
Qed.

(** [init_db] on the store a run of [init_db] leaves: the same answer and
    the same store. *)
Lemma init_db_again f : init_db (stored (init_db f).2) = init_db f.
Proof.
  unfold init_db at 2 3.
  set (d := {| activities := create_table_if_not_exists (activities_table f);
               participants := create_table_if_not_exists (participants_table f) |}).
  destruct (decide (activities d = [])) as [Hempty|Hne].
  - destruct (populate_empty d Hempty) as [[e He]|(d' & Hd' & Hne')].
    + rewrite He. simpl. by rewrite <- He.
    + rewrite Hd'. simpl. by apply init_db_stored_nonempty.
  - rewrite (populate_nonempty d Hne). simpl. by apply init_db_stored_nonempty.
Qed.

(** ** Invariants of the store *)

Lemma membership_count_insert s a e n :
  membership_count
    {| activities := activities s;
       participants := participants s ++ [ParticipantRow a e] |} n =
  membership_count s n + (if decide (a = n) then 1 else 0).
Proof.
  unfold membership_count; cbn [participants].
  rewrite participants_of_app, length_app. unfold participants_of at 2.
  destruct (decide (a = n)) as [Han|Han].
  - rewrite filter_cons_True by done. simpl. lia.
  - rewrite filter_cons_False by done. simpl. lia.
Qed.

Lemma membership_count_delete s row n :
  membership_count
    {| activities := activities s;
       participants := filter (λ p, p ≠ row) (participants s) |} n ≤
  membership_count s n.
Proof.
  unfold membership_count; cbn [participants].
  pose proof (participants_of_delete_le n (participants s) row). lia.
Qed.

Lemma pk_activities_seeded : pk_activities seeded.
Proof. unfold pk_activities. apply (bool_decide_unpack _). by vm_compute. Qed.

Lemma invariant_seeded : invariant seeded.
Proof.
  split.
  - by vm_compute.
  - apply pk_activities_seeded.
  - unfold pk_participants. apply (bool_decide_unpack _). by vm_compute.
  - unfold fk_participants. apply Forall_forall.
    apply (Forall_impl (λ p, activity_name p ∈ name <$> activities seeded)).
    + apply (bool_decide_unpack _). by vm_compute.
    + intros p Hp. apply list_elem_of_fmap in Hp as (r & Hr & Hin). eauto.
  - unfold within_capacity. apply Forall_forall.
    apply (bool_decide_unpack _). by vm_compute.
Qed.

Lemma signup_invariant a e s :
  invariant s → invariant (signup_for_activity a e s).2.
Proof.
  intros [Hne Hpk Hps Hfk Hcap]. rewrite signup_run.
  destruct (List.find _ (activities s)) as [r|] eqn:Hfind; [|done].
  apply find_activity_Some in Hfind as Hr. destruct Hr as [Hr Hname].
  case_bool_decide as Hfull; [done|].
  case_bool_decide as Hreg; [done|].
  split; cbn [snd activities participants]; try done.
  - unfold pk_participants; cbn [participants]. apply NoDup_app.
    split; [done|]. split; [|apply NoDup_singleton].
    intros p Hp Hp'. apply list_elem_of_singleton in Hp'. by subst p.
  - intros p Hp. cbn [participants activities] in *.
    apply elem_of_app in Hp as [Hp|Hp]; [by apply Hfk|].
    apply list_elem_of_singleton in Hp as ->. exists r. by split.
  - intros r' Hr'. cbn [activities] in Hr'.
    rewrite membership_count_insert. specialize (Hcap r' Hr').
    destruct (decide (a = name r')) as [Ha|Ha]; [|lia].
    pose proof (find_activity_unique _ _ Hpk Hr') as Hfind'.
    rewrite <- Ha, Hfind in Hfind'. injection Hfind' as ->.
    rewrite <- Hname in Hfull. lia.
Qed.

Lemma unregister_invariant a e s :
  invariant s → invariant (unregister_from_activity a e s).2.
Proof.
  intros [Hne Hpk Hps Hfk Hcap]. rewrite unregister_run.
  destruct (List.find _ (activities s)) as [r|]; [|done].
  case_bool_decide as Hreg; [|done].
  split; cbn [snd activities participants]; try done.
  - unfold pk_participants; cbn [participants]. by apply NoDup_filter.
  - intros p Hp. cbn [participants activities] in *.
    apply list_elem_of_filter in Hp as [_ Hp]. by apply Hfk.
  - intros r' Hr'. cbn [activities] in Hr'.
    pose proof (membership_count_delete s (ParticipantRow a e) (name r')).
    specialize (Hcap r' Hr'). lia.
Qed.

(** [get_activities] only reads. *)
Lemma get_activities_pure s : (get_activities s).2 = s.
Proof.
  unfold get_activities, get_db, bind, select_all_activities,
    select_all_participants; cbn [txn disk].
  by destruct (collect_participants _ _).
Qed.

Lemma reachable_invariant s : reachable s → invariant s.
Proof.
  induction 1 as [|s a e _ IH|s a e _ IH|s _ IH|s _ IH].
  - apply invariant_seeded.
  - by apply signup_invariant.
  - by apply unregister_invariant.
  - by rewrite get_activities_pure.
  - rewrite init_db_stored_nonempty; [done|]. by destruct IH.
Qed.

(** ** The listing *)

Lemma collect_activities_other rows (acts : gmap string Details.t) n :
  n ∉ name <$> rows → collect_activities rows acts !! n = acts !! n.
Proof.
  revert acts. induction rows as [|r rows IH]; intros acts Hn; [done|].
  rewrite fmap_cons, not_elem_of_cons in Hn. destruct Hn as [Hr Hn].
  simpl. rewrite IH by done. by rewrite lookup_insert_ne.
Qed.

Lemma collect_activities_row rows (acts : gmap string Details.t) r :
  NoDup (name <$> rows) → r ∈ rows →
  collect_activities rows acts !! name r = Some (entry_of r).
Proof.
  revert acts. induction rows as [|r0 rows IH]; intros acts Hnd Hr.
  - by apply elem_of_nil in Hr.
  - rewrite fmap_cons in Hnd. apply NoDup_cons in Hnd as [Hfresh Hnd].
    simpl. apply elem_of_cons in Hr as [->|Hr].
    + rewrite collect_activities_other by done. by rewrite lookup_insert_eq.
    + by apply IH.
Qed.

Lemma collect_activities_keys rows (acts : gmap string Details.t) n :
  is_Some (collect_activities rows acts !! n) ↔
  n ∈ name <$> rows ∨ is_Some (acts !! n).
Proof.
  revert acts. induction rows as [|r rows IH]; intros acts; simpl.
  - rewrite elem_of_nil. tauto.
  - rewrite IH, elem_of_cons. destruct (decide (name r = n)) as [<-|Hn].
    + rewrite lookup_insert_eq. split; [|intros _; right; eauto].
      intros _. left. by left.
    + rewrite lookup_insert_ne by done.
      split; [tauto|]. intros [[Heq|Hin]|Hacts]; [congruence|tauto|tauto].
Qed.

(** When every row finds its key, the second loop returns, and each entry
    has received the emails of its rows, in the order of the rows. *)
Lemma collect_participants_ok rows (acts : gmap string Details.t) :
  (∀ p, p ∈ rows → is_Some (acts !! activity_name p)) →
  ∃ m, collect_participants rows acts = inr m ∧
       ∀ n, m !! n = with_emails (email <$> participants_of n rows) <$> acts !! n.
Proof.
  revert acts. induction rows as [|p rows IH]; intros acts Hkeys.
  - exists acts. split; [done|]. intros n. unfold with_emails. simpl.
    destruct (acts !! n) as [[]|]; simpl; [|done]. by rewrite app_nil_r.
  - simpl. destruct (Hkeys p) as [d Hd]; [left|]. rewrite Hd.
    destruct (IH (<[activity_name p := with_emails [email p] d]> acts))
      as (m & Hm & Hlookup).
    { intros p' Hp'. destruct (decide (activity_name p = activity_name p'))
        as [->|Hne].
      - rewrite lookup_insert_eq. eauto.
      - rewrite lookup_insert_ne by done. apply Hkeys. by right. }
    exists m. split; [done|]. intros n. rewrite Hlookup.
    unfold participants_of.
    destruct (decide (activity_name p = n)) as [<-|Hne].
    + rewrite lookup_insert_eq, Hd, filter_cons_True by done.
      unfold with_emails. simpl. by rewrite <- app_assoc.
    + rewrite lookup_insert_ne by done. by rewrite filter_cons_False.
Qed.

(** A row whose key is missing makes the second loop raise. *)
Lemma collect_participants_missing p rows (acts : gmap string Details.t) :
  acts !! activity_name p = None →
  collect_participants (p :: rows) acts = inl (KeyError (activity_name p)).
Proof. intros H. simpl. by rewrite H. Qed.

Lemma get_activities_unfold s :
  get_activities s =
  match collect_participants (participants s)
          (collect_activities (activities s) ∅) with
  | inl x => (inl x, s)
  | inr acts => (inr acts, s)
  end.
Proof.
  unfold get_activities, get_db, bind, select_all_activities,
    select_all_participants; cbn [txn disk].
  by destruct (collect_participants _ _).
Qed.

(** ** Facts on the sample states *)

Lemma reachable_signups a emails s : reachable s → reachable (signups a emails s).
Proof.
  revert s. induction emails as [|e emails IH]; intros s Hs; [done|].
  simpl. apply IH. by apply reachable_signup.
Qed.

Lemma reachable_olympiad_one_left : reachable olympiad_one_left.
Proof. apply reachable_signups, reachable_seeded. Qed.

Lemma reachable_olympiad_full : reachable olympiad_full.
Proof. apply reachable_signup, reachable_olympiad_one_left. Qed.

Example olympiad_full_count : membership_count olympiad_full "Math Olympiad" = 10.
Proof. by vm_compute. Qed.

(** A store no request produces, with a membership of an unknown
    activity: the listing raises [KeyError]. *)
Example get_activities_dangling :
  get_activities {| activities := [chess];
                    participants := [ParticipantRow "Unknown Club" "x@mergington.edu"] |}
  = (inl (KeyError "Unknown Club"),
     {| activities := [chess];
        participants := [ParticipantRow "Unknown Club" "x@mergington.edu"] |}).
Proof. by vm_compute. Qed.

(** ** Properties of the service *)

Lemma has_activity_find s a :
  has_activity s a ↔
  is_Some (List.find (λ r, bool_decide (name r = a)) (activities s)).
Proof.
  unfold has_activity. split.
  - intros Hex. destruct (List.find _ _) eqn:Hfind; [eauto|].
    by apply find_activity_None in Hfind.
  - intros [r Hr]. apply find_activity_Some in Hr. eauto.
Qed.

Lemma find_activity_pk s a r :
  pk_activities s → r ∈ activities s → name r = a →
  List.find (λ r, bool_decide (name r = a)) (activities s) = Some r.
Proof. intros Hpk Hr <-. by apply find_activity_unique. Qed.

Lemma delete_one_row (ps : list participant_row) row :
  NoDup ps → row ∈ ps →
  (length (filter (λ p, p ≠ row) ps) + 1 = length ps)%nat.
Proof.
  induction ps as [|p ps IH]; intros Hnd Hin.
  - by apply elem_of_nil in Hin.
  - apply NoDup_cons in Hnd as [Hfresh Hnd].
    destruct (decide (p = row)) as [->|Hp].
    + rewrite filter_cons_False by (intros H; by apply H).
      rewrite filter_other_id by done. simpl. lia.
    + rewrite filter_cons_True by done.
      apply elem_of_cons in Hin as [->|Hin]; [done|].
      simpl. rewrite <- (IH Hnd Hin). lia.
Qed.

(** C1. In every state reachable from the seeded store by signups and
    unregistrations (and listings and restarts), no activity has more
    membership rows than its max_participants. *)
Theorem capacity_never_exceeded (s : db) :
  reachable s →
  ∀ r, r ∈ activities s →
    Z.of_nat (length (filter (λ p, activity_name p = name r) (participants s)))
    ≤ max_participants r.
Proof.
  intros Hs r Hr. apply reachable_invariant in Hs.
  by apply (inv_capacity s Hs).
Qed.

Lemma capacity_never_exceeded_witness :
  reachable olympiad_full ∧ olympiad ∈ activities olympiad_full ∧
  Z.of_nat (length (filter (λ p, activity_name p = name olympiad)
                      (participants olympiad_full)))
  ≤ max_participants olympiad.
Proof.
  split; [exact reachable_olympiad_full|].
  split; [apply (bool_decide_unpack _); by vm_compute|].
  apply (capacity_never_exceeded olympiad_full).
  - exact reachable_olympiad_full.
  - apply (bool_decide_unpack _); by vm_compute.
Defined.

(** C6. In every state reachable from the seeded store, the activity_name
    of every membership row is the name of a row of activities. *)
Theorem memberships_reference_activities (s : db) :
  reachable s →
  ∀ p, p ∈ participants s → ∃ r, r ∈ activities s ∧ name r = activity_name p.
Proof.
  intros Hs. apply reachable_invariant in Hs. exact (inv_fk_participants s Hs).
Qed.

Lemma memberships_reference_activities_witness :
  reachable olympiad_full ∧
  ParticipantRow "Math Olympiad" "s10@mergington.edu" ∈ participants olympiad_full ∧
  ∃ r, r ∈ activities olympiad_full ∧ name r = "Math Olympiad".
Proof.
  split; [exact reachable_olympiad_full|].
  split; [apply (bool_decide_unpack _); by vm_compute|].
  apply (memberships_reference_activities olympiad_full
           reachable_olympiad_full
           (ParticipantRow "Math Olympiad" "s10@mergington.edu")).
  apply (bool_decide_unpack _); by vm_compute.
Defined.

(** C2. Signup answers 404 "Activity not found" iff no activity has the
    name; otherwise 400 "Activity is full" iff the membership count of the
    activity is at least its max_participants; otherwise 400 "Already
    registered for this activity" iff the membership exists; otherwise it
    inserts the membership, commits, and answers with the success
    message. *)
Theorem signup_outcomes (s : db) (a e : string) :
  pk_activities s →
  ((signup_for_activity a e s).1 = inl (HTTPException 404 "Activity not found")
   ↔ ¬ has_activity s a) ∧
  ∀ r, r ∈ activities s → name r = a →
    ((signup_for_activity a e s).1 = inl (HTTPException 400 "Activity is full")
     ↔ max_participants r ≤ membership_count s a) ∧
    (membership_count s a < max_participants r →
     ((signup_for_activity a e s).1 =
        inl (HTTPException 400 "Already registered for this activity")
      ↔ ParticipantRow a e ∈ participants s) ∧
     (ParticipantRow a e ∉ participants s →
      signup_for_activity a e s =
        (inr (Body ("Successfully signed up for " +:+ a)),
         {| activities := activities s;
            participants := participants s ++ [ParticipantRow a e] |}))).
Proof.
  intros Hpk. rewrite signup_run. split.
  - rewrite has_activity_find.
    destruct (List.find _ (activities s)) as [r|].
    + split; [|intros H; exfalso; apply H; eauto].
      repeat case_bool_decide; simpl; discriminate.
    + split; [intros _ [r Hr]; discriminate|done].
  - intros r Hr Hname. rewrite (find_activity_pk s a r Hpk Hr Hname).
    split; [|intros Hfree; split].
    + split.
      * repeat case_bool_decide; simpl; intros; [lia|discriminate|discriminate].
      * intros Hfull. by rewrite bool_decide_eq_true_2 by lia.
    + rewrite bool_decide_eq_false_2 by lia.
      case_bool_decide; simpl; [done|]. split; [discriminate|done].
    + intros Hnew. rewrite bool_decide_eq_false_2 by lia.
      by rewrite bool_decide_eq_false_2.
Qed.

Lemma signup_outcomes_witness :
  pk_activities seeded ∧
  signup_for_activity "Chess Club" "new@mergington.edu" seeded =
    (inr (Body "Successfully signed up for Chess Club"),
     {| activities := activities seeded;
        participants := participants seeded ++
          [ParticipantRow "Chess Club" "new@mergington.edu"] |}).
Proof.
  split; [exact pk_activities_seeded|].
  destruct (signup_outcomes seeded "Chess Club" "new@mergington.edu"
              pk_activities_seeded) as [_ Hrow].
  destruct (Hrow chess) as [_ Hfree].
  - apply (bool_decide_unpack _); by vm_compute.
  - reflexivity.
  - destruct Hfree as [_ Hnew]; [by vm_compute|].
    apply Hnew. apply (bool_decide_unpack _); by vm_compute.
Defined.

(** C3. Unregister answers 404 "Activity not found" iff no activity has
    the name; otherwise 404 "Participant not found" iff the membership
    does not exist; otherwise it answers with the success message and the
    store loses that membership and nothing else (one row, the key being
    unique). *)
Theorem unregister_outcomes (s : db) (a e : string) :
  ((unregister_from_activity a e s).1 =
     inl (HTTPException 404 "Activity not found")
   ↔ ¬ has_activity s a) ∧
  (has_activity s a →
   ((unregister_from_activity a e s).1 =
      inl (HTTPException 404 "Participant not found")
    ↔ ParticipantRow a e ∉ participants s) ∧
   (ParticipantRow a e ∈ participants s →
    ∃ s', unregister_from_activity a e s =
            (inr (Body ("Successfully unregistered from " +:+ a)), s') ∧
          activities s' = activities s ∧
          (∀ p, p ∈ participants s' ↔ p ∈ participants s ∧ p ≠ ParticipantRow a e) ∧
          sublist (participants s') (participants s) ∧
          (pk_participants s →
           (length (participants s') + 1 = length (participants s))%nat))).
Proof.
  rewrite unregister_run, has_activity_find. split.
  - destruct (List.find _ (activities s)) as [r|].
    + split; [|intros H; exfalso; apply H; eauto].
      case_bool_decide; simpl; discriminate.
    + split; [intros _ [r Hr]; discriminate|done].
  - intros [r Hr]. rewrite Hr. split.
    + case_bool_decide; simpl; [|done]. split; [discriminate|done].
    + intros Hin. rewrite bool_decide_eq_true_2 by done.
      eexists. split; [done|]. cbn [activities participants].
      split; [done|]. split; [|split].
      * intros p. rewrite list_elem_of_filter. tauto.
      * apply sublist_filter.
      * intros Hpk. by apply delete_one_row.
Qed.

Lemma unregister_outcomes_witness :
  has_activity seeded "Chess Club" ∧
  ParticipantRow "Chess Club" "daniel@mergington.edu" ∈ participants seeded ∧
  pk_participants seeded ∧
  ∃ s', unregister_from_activity "Chess Club" "daniel@mergington.edu" seeded =
          (inr (Body "Successfully unregistered from Chess Club"), s') ∧
        (ParticipantRow "Chess Club" "daniel@mergington.edu" ∉ participants s') ∧
        (length (participants s') + 1 = length (participants seeded))%nat.
Proof.
  assert (Hact : has_activity seeded "Chess Club").
  { exists chess. split; [apply (bool_decide_unpack _); by vm_compute|done]. }
  assert (Hin : ParticipantRow "Chess Club" "daniel@mergington.edu"
                  ∈ participants seeded).
  { apply (bool_decide_unpack _); by vm_compute. }
  assert (Hpk : pk_participants seeded) by exact (inv_pk_participants _ invariant_seeded).
  split; [exact Hact|]. split; [exact Hin|]. split; [exact Hpk|].
  destruct (unregister_outcomes seeded "Chess Club" "daniel@mergington.edu")
    as [_ Hhas].
  destruct (Hhas Hact) as [_ Hdel].
  destruct (Hdel Hin) as (s' & Hrun & _ & Hrows & _ & Hlen).
  exists s'. split; [exact Hrun|]. split; [|exact (Hlen Hpk)].
  intros Hp. apply Hrows in Hp as [_ Hp]. by apply Hp.
Defined.

(** C4, as the code has it. When a signup succeeds, the same signup
    repeated at once is refused with status 400 and changes nothing: with
    "Already registered for this activity" when the activity still has a
    free place, with "Activity is full" when the first signup took the
    last place (the capacity check comes first). *)
Theorem second_signup_rejected (s s1 : db) (a e : string) (r : activity_row) (b : body) :
  pk_activities s → r ∈ activities s → name r = a →
  signup_for_activity a e s = (inr b, s1) →
  signup_for_activity a e s1 =
    (inl (HTTPException 400
            (if bool_decide (membership_count s1 a < max_participants r)
             then "Already registered for this activity"
             else "Activity is full")), s1).
Proof.
  intros Hpk Hr Hname. rewrite signup_run.
  rewrite (find_activity_pk s a r Hpk Hr Hname).
  case_bool_decide as Hfull; [discriminate|].
  case_bool_decide as Hreg; [discriminate|].
  intros [= <- <-]. rewrite signup_run. cbn [activities].
  rewrite (find_activity_pk s a r Hpk Hr Hname).
  case_bool_decide as Hfull'.
  - rewrite (bool_decide_eq_false_2 (membership_count _ a < max_participants r));
      [done|lia].
  - rewrite (bool_decide_eq_true_2 (membership_count _ a < max_participants r));
      [|lia].
    rewrite bool_decide_eq_true_2; [done|].
    cbn [participants]. apply elem_of_app. right. by apply list_elem_of_singleton.
Qed.

Lemma second_signup_rejected_witness :
  pk_activities seeded ∧ chess ∈ activities seeded ∧
  signup_for_activity "Chess Club" "new@mergington.edu"
    (signup_for_activity "Chess Club" "new@mergington.edu" seeded).2 =
  (inl (HTTPException 400 "Already registered for this activity"),
   (signup_for_activity "Chess Club" "new@mergington.edu" seeded).2).
Proof.
  assert (Hchess : chess ∈ activities seeded)
    by (apply (bool_decide_unpack _); by vm_compute).
  split; [exact pk_activities_seeded|]. split; [exact Hchess|].
  exact (second_signup_rejected seeded
           (signup_for_activity "Chess Club" "new@mergington.edu" seeded).2
           "Chess Club" "new@mergington.edu" chess
           (Body "Successfully signed up for Chess Club")
           pk_activities_seeded Hchess eq_refl eq_refl).
Defined.

(** C4, as stated, fails: with one place left in "Math Olympiad", the
    signup of s10@mergington.edu succeeds, and the same signup repeated is
    refused with "Activity is full", not with "Already registered for this
    activity". *)
Lemma second_signup_conflict_counterexample :
  reachable olympiad_one_left ∧
  has_activity olympiad_one_left "Math Olympiad" ∧
  signup_for_activity "Math Olympiad" "s10@mergington.edu" olympiad_one_left =
    (inr (Body "Successfully signed up for Math Olympiad"), olympiad_full) ∧
  signup_for_activity "Math Olympiad" "s10@mergington.edu" olympiad_full =
    (inl (HTTPException 400 "Activity is full"), olympiad_full) ∧
  (signup_for_activity "Math Olympiad" "s10@mergington.edu" olympiad_full).1 ≠
    inl (HTTPException 400 "Already registered for this activity").
Proof.
  split; [exact reachable_olympiad_one_left|].
  split.
  { exists olympiad. split; [apply (bool_decide_unpack _); by vm_compute|done]. }
  split; [by vm_compute|]. split; [by vm_compute|].
  by vm_compute.
Qed.

(** C5. [init_db] on a store that [init_db] left changes nothing; from a
    fresh file the first call stores the initial data and the second call
    leaves it: every activity of [INITIAL_ACTIVITIES] once, every
    participant once. *)
Theorem init_db_idempotent :
  (∀ f, (init_db (stored (init_db f).2)).2 = (init_db f).2) ∧
  init_db empty_file = (inr tt, seeded) ∧
  init_db (stored seeded) = (inr tt, seeded) ∧
  activities seeded =
    (λ item, ActivityRow item.1 (Details.description item.2)
               (Details.schedule item.2) (Details.max_participants item.2))
    <$> INITIAL_ACTIVITIES ∧
  participants seeded =
    concat ((λ item, ParticipantRow item.1 <$> Details.participants item.2)
            <$> INITIAL_ACTIVITIES) ∧
  NoDup (name <$> activities seeded) ∧
  NoDup (participants seeded).
Proof.
  split; [intros f; by rewrite init_db_again|].
  split; [by vm_compute|].
  split; [apply init_db_stored_nonempty; by vm_compute|].
  split; [by vm_compute|]. split; [by vm_compute|].
  split.
  - exact pk_activities_seeded.
  - exact (inv_pk_participants _ invariant_seeded).
Qed.

(** C7. A signup or an unregistration that raises leaves the store as it
    was. *)
Theorem errors_leave_store_unchanged (s : db) (a e : string) (x : exn) :
  ((signup_for_activity a e s).1 = inl x →
   (signup_for_activity a e s).2 = s) ∧
  ((unregister_from_activity a e s).1 = inl x →
   (unregister_from_activity a e s).2 = s).
Proof.
  rewrite signup_run, unregister_run.
  destruct (List.find _ (activities s)) as [r|]; [|done].
  split.
  - repeat case_bool_decide; simpl; done.
  - case_bool_decide; simpl; done.
Qed.

Lemma errors_leave_store_unchanged_witness :
  ((signup_for_activity "Math Olympiad" "s11@mergington.edu" olympiad_full).1 =
     inl (HTTPException 400 "Activity is full") ∧
   (signup_for_activity "Math Olympiad" "s11@mergington.edu" olympiad_full).2 =
     olympiad_full) ∧
  ((unregister_from_activity "Math Olympiad" "s11@mergington.edu" olympiad_full).1 =
     inl (HTTPException 404 "Participant not found") ∧
   (unregister_from_activity "Math Olympiad" "s11@mergington.edu" olympiad_full).2 =
     olympiad_full).
Proof.
  split.
  - assert (H : (signup_for_activity "Math Olympiad" "s11@mergington.edu"
                   olympiad_full).1 = inl (HTTPException 400 "Activity is full"))
      by (by vm_compute).
    split; [exact H|].
    exact (proj1 (errors_leave_store_unchanged olympiad_full "Math Olympiad"
                    "s11@mergington.edu" _) H).
  - assert (H : (unregister_from_activity "Math Olympiad" "s11@mergington.edu"
                   olympiad_full).1 = inl (HTTPException 404 "Participant not found"))
      by (by vm_compute).
    split; [exact H|].
    exact (proj2 (errors_leave_store_unchanged olympiad_full "Math Olympiad"
                    "s11@mergington.edu" _) H).
Defined.

(** C8, as the code has it. GET / answers with a redirect to
    /static/index.html whose status is 307, the default of
    [RedirectResponse], which [root] calls without a status code. *)
Theorem root_redirects :
  status_code root = 307 ∧ location root = "/static/index.html".
Proof. split; reflexivity. Qed.

(** C8, as stated, fails: the status of the answer to GET / is not 302. *)
Lemma root_status_counterexample : status_code root ≠ 302.
Proof. by vm_compute. Qed.

(** C9, as the code has it. The listing changes nothing in the store,
    whatever the store. On a store where every membership is of a stored
    activity (and activity names are unique, as the primary key has it) it
    returns a mapping whose keys are the stored activity names, each with
    the description, schedule and max_participants of its row and with the
    emails of exactly its membership rows, in their order. *)
Theorem get_activities_lists (s : db) :
  (get_activities s).2 = s ∧
  (pk_activities s → fk_participants s →
   ∃ m : gmap string Details.t,
     (get_activities s).1 = inr m ∧
     (∀ n, is_Some (m !! n) ↔ has_activity s n) ∧
     (∀ r, r ∈ activities s →
        m !! name r =
        Some (Details.Make (description r) (schedule r) (max_participants r)
                (email <$> filter (λ p, activity_name p = name r)
                                  (participants s))))).
Proof.
  split; [apply get_activities_pure|]. intros Hpk Hfk.
  rewrite get_activities_unfold.
  destruct (collect_participants_ok (participants s)
              (collect_activities (activities s) ∅)) as (m & Hm & Hlookup).
  { intros p Hp. apply collect_activities_keys. left.
    destruct (Hfk p Hp) as (r & Hr & <-). by apply list_elem_of_fmap_2. }
  rewrite Hm. exists m. split; [done|]. split.
  - intros n. rewrite Hlookup, fmap_is_Some, collect_activities_keys.
    rewrite lookup_empty, list_elem_of_fmap. unfold has_activity. split.
    + intros [(r & -> & Hr)|[d Hd]]; [eauto|done].
    + intros (r & Hr & <-). left. eauto.
  - intros r Hr. rewrite Hlookup, (collect_activities_row _ _ _ Hpk Hr). done.
Qed.

Lemma get_activities_lists_witness :
  pk_activities olympiad_full ∧ fk_participants olympiad_full ∧
  ∃ m : gmap string Details.t,
    (get_activities olympiad_full).1 = inr m ∧
    m !! "Math Olympiad" =
    Some (Details.Make
            "Prepare for math competitions and solve challenging problems"
            "Thursdays, 3:30 PM - 5:00 PM" 10
            ["charlotte@mergington.edu"; "jack@mergington.edu";
             "s3@mergington.edu"; "s4@mergington.edu"; "s5@mergington.edu";
             "s6@mergington.edu"; "s7@mergington.edu"; "s8@mergington.edu";
             "s9@mergington.edu"; "s10@mergington.edu"]).
Proof.
  pose proof (reachable_invariant _ reachable_olympiad_full) as Hinv.
  split; [exact (inv_pk_activities _ Hinv)|].
  split; [exact (inv_fk_participants _ Hinv)|].
  destruct (proj2 (get_activities_lists olympiad_full)
              (inv_pk_activities _ Hinv) (inv_fk_participants _ Hinv))
    as (m & Hm & _ & Hrows).
  exists m. split; [exact Hm|].
  apply (Hrows olympiad). apply (bool_decide_unpack _); by vm_compute.
Defined.

(** C9, as stated, fails: on a store with unique activity names that
    holds a membership of "Unknown Club", which is no stored activity, the
    listing raises [KeyError] and returns no mapping. *)
Lemma get_activities_counterexample :
  pk_activities dangling_store ∧
  (get_activities dangling_store).1 = inl (KeyError "Unknown Club") ∧
  ¬ ∃ m : gmap string Details.t, (get_activities dangling_store).1 = inr m.
Proof.
  split; [apply (bool_decide_unpack _); by vm_compute|].
  assert (H : (get_activities dangling_store).1 = inl (KeyError "Unknown Club"))
    by (by vm_compute).
  split; [exact H|]. intros [m Hm]. rewrite H in Hm. discriminate.
Qed.

(** C10. Signup does not look at the shape of the email: for any string,
    the empty one included, when the activity exists, has a free place and
    the pair is not registered, the signup succeeds and the store gains
    the membership with that very string, and nothing else. *)
Theorem signup_accepts_any_email (s : db) (a e : string) (r : activity_row) :
  pk_activities s → r ∈ activities s → name r = a →
  membership_count s a < max_participants r →
  ParticipantRow a e ∉ participants s →
  ∃ s', signup_for_activity a e s =
          (inr (Body ("Successfully signed up for " +:+ a)), s') ∧
        activities s' = activities s ∧
        (∀ p, p ∈ participants s' ↔ p ∈ participants s ∨ p = ParticipantRow a e) ∧
        membership_count s' a = membership_count s a + 1.
Proof.
  intros Hpk Hr Hname Hfree Hnew. rewrite signup_run.
  rewrite (find_activity_pk s a r Hpk Hr Hname).
  rewrite bool_decide_eq_false_2 by lia.
  rewrite bool_decide_eq_false_2 by done.
  eexists. split; [done|]. cbn [activities participants].
  split; [done|]. split.
  - intros p. by rewrite elem_of_app, list_elem_of_singleton.
  - rewrite membership_count_insert. by rewrite decide_True.
Qed.

Lemma signup_accepts_any_email_witness :
  pk_activities seeded ∧ chess ∈ activities seeded ∧
  membership_count seeded "Chess Club" < max_participants chess ∧
  (ParticipantRow "Chess Club" "" ∉ participants seeded) ∧
  ∃ s', signup_for_activity "Chess Club" "" seeded =
          (inr (Body "Successfully signed up for Chess Club"), s') ∧
        ParticipantRow "Chess Club" "" ∈ participants s'.
Proof.
  assert (Hchess : chess ∈ activities seeded)
    by (apply (bool_decide_unpack _); by vm_compute).
  assert (Hfree : membership_count seeded "Chess Club" < max_participants chess)
    by (by vm_compute).
  assert (Hnew : ParticipantRow "Chess Club" "" ∉ participants seeded)
    by (apply (bool_decide_unpack _); by vm_compute).
  split; [exact pk_activities_seeded|]. split; [exact Hchess|].
  split; [exact Hfree|]. split; [exact Hnew|].
  destruct (signup_accepts_any_email seeded "Chess Club" "" chess
              pk_activities_seeded Hchess eq_refl Hfree Hnew)
    as (s' & Hrun & _ & Hrows & _).
  exists s'. split; [exact Hrun|]. apply Hrows. by right.
Defined.

(** ** Further properties of the handlers *)

Lemma db_eta (s : db) :
  {| activities := activities s; participants := participants s |} = s.
Proof. by destruct s. Qed.

Lemma filter_other_snoc (ps : list participant_row) row :
  row ∉ ps → filter (λ p, p ≠ row) (ps ++ [row])%list = ps.
Proof.
  intros Hnew. rewrite filter_app, filter_other_id by done.
  rewrite filter_cons_False by (intros H; by apply H).
  by rewrite filter_nil, app_nil_r.
Qed.

Lemma not_elem_of_filter_other (ps : list participant_row) row :
  row ∉ filter (λ p, p ≠ row) ps.
Proof. rewrite list_elem_of_filter. by intros [Hne _]. Qed.

(** What a successful signup says of the store it ran on. *)
Lemma signup_success s s1 a e b :
  signup_for_activity a e s = (inr b, s1) →
  ∃ r, List.find (λ r, bool_decide (name r = a)) (activities s) = Some r ∧
       membership_count s a < max_participants r ∧
       (ParticipantRow a e ∉ participants s) ∧
       b = Body ("Successfully signed up for " +:+ a) ∧
       s1 = {| activities := activities s;
               participants := participants s ++ [ParticipantRow a e] |}.
Proof.
  rewrite signup_run.
  destruct (List.find _ (activities s)) as [r|]; [|discriminate].
  case_bool_decide as Hfull; [discriminate|].
  case_bool_decide as Hreg; [discriminate|].
  intros [= <- <-]. exists r. repeat split; [lia|done].
Qed.

(** What a successful unregistration says of the store it ran on. *)
Lemma unregister_success s s1 a e b :
  unregister_from_activity a e s = (inr b, s1) →
  ∃ r, List.find (λ r, bool_decide (name r = a)) (activities s) = Some r ∧
       ParticipantRow a e ∈ participants s ∧
       b = Body ("Successfully unregistered from " +:+ a) ∧
       s1 = {| activities := activities s;
               participants :=
                 filter (λ p, p ≠ ParticipantRow a e) (participants s) |}.
Proof.
  rewrite unregister_run.
  destruct (List.find _ (activities s)) as [r|]; [|discriminate].
  case_bool_decide as Hreg; [|discriminate].
  intros [= <- <-]. exists r. by repeat split.
Qed.

(** X1. A successful signup is undone by the unregistration of the same
    pair: it succeeds and the store is again what it was before the
    signup, row for row. *)
Theorem signup_then_unregister (s s1 : db) (a e : string) (b : body) :
  signup_for_activity a e s = (inr b, s1) →
  unregister_from_activity a e s1 =
    (inr (Body ("Successfully unregistered from " +:+ a)), s).
Proof.
  intros Hsignup.
  apply signup_success in Hsignup as (r & Hfind & _ & Hnew & _ & ->).
  rewrite unregister_run. cbn [activities participants]. rewrite Hfind.
  rewrite bool_decide_eq_true_2.
  - by rewrite filter_other_snoc, db_eta.
  - apply elem_of_app. right. by apply list_elem_of_singleton.
Qed.

Lemma signup_then_unregister_witness :
  unregister_from_activity "Chess Club" "new@mergington.edu"
    (signup_for_activity "Chess Club" "new@mergington.edu" olympiad_full).2 =
  (inr (Body "Successfully unregistered from Chess Club"), olympiad_full).
Proof.
  exact (signup_then_unregister olympiad_full
           (signup_for_activity "Chess Club" "new@mergington.edu" olympiad_full).2
           "Chess Club" "new@mergington.edu"
           (Body "Successfully signed up for Chess Club") eq_refl).
Defined.

(** X2. A successful unregistration repeated at once answers 404
    "Participant not found" and changes nothing. *)
Theorem unregister_twice (s s1 : db) (a e : string) (b : body) :
  unregister_from_activity a e s = (inr b, s1) →
  unregister_from_activity a e s1 =
    (inl (HTTPException 404 "Participant not found"), s1).
Proof.
  intros Hun. apply unregister_success in Hun as (r & Hfind & _ & _ & ->).
  rewrite unregister_run. cbn [activities participants]. rewrite Hfind.
  rewrite bool_decide_eq_false_2; [done|]. apply not_elem_of_filter_other.
Qed.

Lemma unregister_twice_witness :
  unregister_from_activity "Chess Club" "daniel@mergington.edu"
    (unregister_from_activity "Chess Club" "daniel@mergington.edu" seeded).2 =
  (inl (HTTPException 404 "Participant not found"),
   (unregister_from_activity "Chess Club" "daniel@mergington.edu" seeded).2).
Proof.
  exact (unregister_twice seeded
           (unregister_from_activity "Chess Club" "daniel@mergington.edu" seeded).2
           "Chess Club" "daniel@mergington.edu"
           (Body "Successfully unregistered from Chess Club") eq_refl).
Defined.

(** X3. Whatever the store, a signup raises nothing but one of its three
    HTTP errors and an unregistration nothing but one of its two: the
    INSERT of a signup is never refused by the primary key, the check
    before it having found no such row. *)
Theorem handlers_raise_only_http (s : db) (a e : string) (x : exn) :
  ((signup_for_activity a e s).1 = inl x →
   x = HTTPException 404 "Activity not found" ∨
   x = HTTPException 400 "Activity is full" ∨
   x = HTTPException 400 "Already registered for this activity") ∧
  ((unregister_from_activity a e s).1 = inl x →
   x = HTTPException 404 "Activity not found" ∨
   x = HTTPException 404 "Participant not found").
Proof.
  rewrite signup_run, unregister_run.
  destruct (List.find _ (activities s)) as [r|].
  - split.
    + repeat case_bool_decide; simpl; intros [= <-]; auto.
    + case_bool_decide; simpl; intros [= <-]; auto.
  - split; simpl; intros [= <-]; auto.
Qed.

Lemma handlers_raise_only_http_witness :
  (signup_for_activity "Math Olympiad" "s10@mergington.edu" olympiad_full).1 =
    inl (HTTPException 400 "Activity is full") ∧
  (HTTPException 400 "Activity is full" = HTTPException 404 "Activity not found" ∨
   HTTPException 400 "Activity is full" = HTTPException 400 "Activity is full" ∨
   HTTPException 400 "Activity is full" =
     HTTPException 400 "Already registered for this activity").
Proof.
  assert (H : (signup_for_activity "Math Olympiad" "s10@mergington.edu"
                 olympiad_full).1 = inl (HTTPException 400 "Activity is full"))
    by (by vm_compute).
  split; [exact H|].
  exact (proj1 (handlers_raise_only_http olympiad_full "Math Olympiad"
                  "s10@mergington.edu" _) H).
Defined.

Lemma participants_of_delete_other n (ps : list participant_row) row :
  activity_name row ≠ n →
  participants_of n (filter (λ p, p ≠ row) ps) = participants_of n ps.
Proof.
  intros Hn. unfold participants_of. induction ps as [|p ps IH]; [done|].
  destruct (decide (p = row)) as [->|Hp].
  - rewrite (filter_cons_False (λ p, p ≠ row)) by (intros H; by apply H).
    by rewrite (filter_cons_False (λ p, activity_name p = n)).
  - rewrite (filter_cons_True (λ p, p ≠ row)) by done.
    destruct (decide (activity_name p = n)).
    + rewrite !(filter_cons_True (λ p, activity_name p = n)) by done.
      by rewrite IH.
    + by rewrite !(filter_cons_False (λ p, activity_name p = n)).
Qed.

Lemma participants_of_delete_one (ps : list participant_row) row :
  NoDup ps → row ∈ ps →
  (length (participants_of (activity_name row) (filter (λ p, p ≠ row) ps)) + 1 =
   length (participants_of (activity_name row) ps))%nat.
Proof.
  unfold participants_of. induction ps as [|p ps IH]; intros Hnd Hin.
  - by apply elem_of_nil in Hin.
  - apply NoDup_cons in Hnd as [Hfresh Hnd].
    destruct (decide (p = row)) as [->|Hp].
    + rewrite (filter_cons_False (λ p, p ≠ row)) by (intros H; by apply H).
      rewrite filter_other_id by done.
      rewrite (filter_cons_True (λ p, activity_name p = activity_name row)) by done.
      simpl. lia.
    + apply elem_of_cons in Hin as [->|Hin]; [done|].
      rewrite (filter_cons_True (λ p, p ≠ row)) by done.
      destruct (decide (activity_name p = activity_name row)).
      * rewrite !(filter_cons_True (λ p, activity_name p = activity_name row))
          by done.
        simpl. rewrite <- (IH Hnd Hin). lia.
      * rewrite !(filter_cons_False (λ p, activity_name p = activity_name row))
          by done.
        by apply IH.
Qed.

Lemma delete_then_append (ps : list participant_row) row :
  NoDup ps → row ∈ ps → filter (λ p, p ≠ row) ps ++ [row] ≡ₚ ps.
Proof.
  induction ps as [|p ps IH]; intros Hnd Hin.
  - by apply elem_of_nil in Hin.
  - apply NoDup_cons in Hnd as [Hfresh Hnd].
    destruct (decide (p = row)) as [->|Hp].
    + rewrite filter_cons_False by (intros H; by apply H).
      rewrite filter_other_id by done. symmetry. apply Permutation_cons_append.
    + apply elem_of_cons in Hin as [->|Hin]; [done|].
      rewrite filter_cons_True by done. simpl. by rewrite IH.
Qed.

Lemma signup_frame a e s :
  activities (signup_for_activity a e s).2 = activities s ∧
  ∀ n, n ≠ a →
    participants_of n (participants (signup_for_activity a e s).2) =
    participants_of n (participants s).
Proof.
  rewrite signup_run.
  destruct (List.find _ (activities s)) as [r|]; [|done].
  repeat case_bool_decide; try done. cbn [snd activities participants].
  split; [done|]. intros n Hn. rewrite participants_of_app.
  unfold participants_of at 2. rewrite filter_cons_False by (simpl; congruence).
  by rewrite filter_nil, app_nil_r.
Qed.

Lemma unregister_frame a e s :
  activities (unregister_from_activity a e s).2 = activities s ∧
  ∀ n, n ≠ a →
    participants_of n (participants (unregister_from_activity a e s).2) =
    participants_of n (participants s).
Proof.
  rewrite unregister_run.
  destruct (List.find _ (activities s)) as [r|]; [|done].
  case_bool_decide; [|done]. cbn [snd activities participants].
  split; [done|]. intros n Hn. apply participants_of_delete_other.
  simpl. congruence.
Qed.

(** X4. A signup or an unregistration for one activity, whatever it
    answers, leaves the table of activities as it is and leaves the
    membership rows of every other activity as they are, in their order. *)
Theorem handlers_touch_one_activity (s : db) (a e n : string) :
  n ≠ a →
  activities (signup_for_activity a e s).2 = activities s ∧
  filter (λ p, activity_name p = n) (participants (signup_for_activity a e s).2) =
    filter (λ p, activity_name p = n) (participants s) ∧
  activities (unregister_from_activity a e s).2 = activities s ∧
  filter (λ p, activity_name p = n)
         (participants (unregister_from_activity a e s).2) =
    filter (λ p, activity_name p = n) (participants s).
Proof.
  intros Hn.
  destruct (signup_frame a e s) as [Hacts Hrows].
  destruct (unregister_frame a e s) as [Hacts' Hrows'].
  split; [done|]. split; [by apply Hrows|]. split; [done|]. by apply Hrows'.
Qed.

Lemma handlers_touch_one_activity_witness :
  "Chess Club" ≠ "Math Olympiad" ∧
  filter (λ p, activity_name p = "Chess Club")
    (participants (signup_for_activity "Math Olympiad" "s3@mergington.edu" seeded).2)
  = [ParticipantRow "Chess Club" "michael@mergington.edu";
     ParticipantRow "Chess Club" "daniel@mergington.edu"].
Proof.
  assert (Hn : "Chess Club" ≠ "Math Olympiad") by done.
  split; [exact Hn|].
  destruct (handlers_touch_one_activity seeded "Math Olympiad"
              "s3@mergington.edu" "Chess Club" Hn) as (_ & Hrows & _).
  rewrite Hrows. by vm_compute.
Defined.

(** X5. An unregistration frees a place: on a store with unique pairs,
    unique activity names and no activity over its capacity, after a
    successful unregistration the signup of the same pair succeeds, and
    the store then holds the same memberships as before the
    unregistration (the row has moved to the end). *)
Theorem unregister_then_signup (s s1 : db) (a e : string) (b : body) :
  pk_activities s → pk_participants s → within_capacity s →
  unregister_from_activity a e s = (inr b, s1) →
  ∃ s2, signup_for_activity a e s1 =
          (inr (Body ("Successfully signed up for " +:+ a)), s2) ∧
        activities s2 = activities s ∧
        participants s2 ≡ₚ participants s.
Proof.
  intros Hpk Hps Hcap Hun.
  apply unregister_success in Hun as (r & Hfind & Hin & _ & ->).
  apply find_activity_Some in Hfind as Hr. destruct Hr as [Hr Hname].
  rewrite signup_run. cbn [activities participants]. rewrite Hfind.
  pose proof (participants_of_delete_one (participants s)
                (ParticipantRow a e) Hps Hin) as Hone.
  specialize (Hcap r Hr). rewrite Hname in Hcap.
  unfold membership_count in *; cbn [participants activity_name] in *.
  rewrite bool_decide_eq_false_2 by lia.
  rewrite bool_decide_eq_false_2 by apply not_elem_of_filter_other.
  eexists. split; [done|]. cbn [activities participants].
  split; [done|]. by apply delete_then_append.
Qed.

Lemma unregister_then_signup_witness :
  pk_activities olympiad_full ∧ pk_participants olympiad_full ∧
  within_capacity olympiad_full ∧
  ∃ s2, signup_for_activity "Math Olympiad" "jack@mergington.edu"
          (unregister_from_activity "Math Olympiad" "jack@mergington.edu"
             olympiad_full).2 =
          (inr (Body "Successfully signed up for Math Olympiad"), s2) ∧
        participants s2 ≡ₚ participants olympiad_full.
Proof.
  pose proof (reachable_invariant _ reachable_olympiad_full) as Hinv.
  split; [exact (inv_pk_activities _ Hinv)|].
  split; [exact (inv_pk_participants _ Hinv)|].
  split; [exact (inv_capacity _ Hinv)|].
  destruct (unregister_then_signup olympiad_full
              (unregister_from_activity "Math Olympiad" "jack@mergington.edu"
                 olympiad_full).2
              "Math Olympiad" "jack@mergington.edu"
              (Body "Successfully unregistered from Math Olympiad")
              (inv_pk_activities _ Hinv) (inv_pk_participants _ Hinv)
              (inv_capacity _ Hinv) eq_refl) as (s2 & Hrun & _ & Hperm).
  exists s2. split; [exact Hrun|exact Hperm].
Defined.

Lemma reachable_activities s :
  reachable s → activities s = activity_rows_of INITIAL_ACTIVITIES.
Proof.
  induction 1 as [|s a e Hs IH|s a e Hs IH|s Hs IH|s Hs IH].
  - by vm_compute.
  - by rewrite (proj1 (signup_frame a e s)).
  - by rewrite (proj1 (unregister_frame a e s)).
  - by rewrite get_activities_pure.
  - rewrite init_db_stored_nonempty; [done|].
    apply reachable_invariant in Hs. by destruct Hs.
Qed.

(** X6. No request and no restart changes the activities: in every
    reachable state the table of activities holds the rows of
    [INITIAL_ACTIVITIES], each once and in their order. *)
Theorem reachable_activities_fixed (s : db) :
  reachable s → activities s = activity_rows_of INITIAL_ACTIVITIES.
Proof. apply reachable_activities. Qed.

Lemma reachable_activities_fixed_witness :
  reachable olympiad_full ∧
  activities olympiad_full = activity_rows_of INITIAL_ACTIVITIES.
Proof.
  split; [exact reachable_olympiad_full|].
  exact (reachable_activities_fixed olympiad_full reachable_olympiad_full).
Defined.

(** X7. In every reachable state no pair (activity_name, email) is stored
    twice. *)
Theorem reachable_memberships_unique (s : db) :
  reachable s → NoDup (participants s).
Proof.
  intros Hs. apply reachable_invariant in Hs. exact (inv_pk_participants s Hs).
Qed.

Lemma reachable_memberships_unique_witness :
  reachable olympiad_full ∧ NoDup (participants olympiad_full).
Proof.
  split; [exact reachable_olympiad_full|].
  exact (reachable_memberships_unique olympiad_full reachable_olympiad_full).
Defined.

(** ** Further properties of the listing *)

(** The second loop keeps the keys of the mapping. *)
Lemma collect_participants_raises rows (acts : gmap string Details.t) x :
  collect_participants rows acts = inl x →
  ∃ p, p ∈ rows ∧ acts !! activity_name p = None ∧ x = KeyError (activity_name p).
Proof.
  revert acts. induction rows as [|p rows IH]; intros acts; [done|].
  simpl. destruct (acts !! activity_name p) as [d|] eqn:Hd.
  - intros Hx. apply IH in Hx as (p' & Hp' & Hnone & ->).
    exists p'. split; [by right|]. split; [|done].
    destruct (decide (activity_name p = activity_name p')) as [Heq|Hne].
    + rewrite Heq, lookup_insert_eq in Hnone. discriminate.
    + by rewrite lookup_insert_ne in Hnone.
  - intros [= <-]. exists p. split; [left|done].
Qed.

Lemma collect_participants_returns rows (acts m : gmap string Details.t) :
  collect_participants rows acts = inr m →
  ∀ p, p ∈ rows → is_Some (acts !! activity_name p).
Proof.
  revert acts. induction rows as [|p rows IH]; intros acts Hrun p' Hp'.
  - by apply elem_of_nil in Hp'.
  - simpl in Hrun. destruct (acts !! activity_name p) as [d|] eqn:Hd;
      [|discriminate].
    apply elem_of_cons in Hp' as [->|Hp']; [eauto|].
    specialize (IH _ Hrun p' Hp').
    destruct (decide (activity_name p = activity_name p')) as [Heq|Hne].
    + rewrite <- Heq. eauto.
    + by rewrite lookup_insert_ne in IH.
Qed.

Lemma fk_participants_keys s :
  fk_participants s ↔
  ∀ p, p ∈ participants s →
       is_Some (collect_activities (activities s) ∅ !! activity_name p).
Proof.
  unfold fk_participants. split; intros H p Hp.
  - apply collect_activities_keys. left.
    destruct (H p Hp) as (r & Hr & <-). by apply list_elem_of_fmap_2.
  - specialize (H p Hp). apply collect_activities_keys in H as [Hin|Hempty].
    + apply list_elem_of_fmap in Hin as (r & -> & Hr). eauto.
    + rewrite lookup_empty in Hempty. by destruct Hempty.
Qed.

(** The listing of a store whose memberships all have their activity. *)
Lemma get_activities_lookup s :
  fk_participants s →
  ∃ m, get_activities s = (inr m, s) ∧
       ∀ n, m !! n =
            with_emails (email <$> participants_of n (participants s))
            <$> collect_activities (activities s) ∅ !! n.
Proof.
  intros Hfk. rewrite get_activities_unfold.
  destruct (collect_participants_ok (participants s)
              (collect_activities (activities s) ∅)) as (m & Hm & Hlookup).
  { by apply fk_participants_keys. }
  rewrite Hm. by exists m.
Qed.

(** X8. The listing returns a mapping iff every membership row names a
    stored activity; otherwise it raises [KeyError] with the
    activity_name of a membership row that names none. *)
Theorem get_activities_key_error (s : db) :
  ((∃ m, (get_activities s).1 = inr m) ↔ fk_participants s) ∧
  (∀ x, (get_activities s).1 = inl x →
        ∃ p, p ∈ participants s ∧ ¬ has_activity s (activity_name p) ∧
             x = KeyError (activity_name p)).
Proof.
  split; [split|].
  - intros [m Hm]. apply fk_participants_keys. revert Hm.
    rewrite get_activities_unfold.
    destruct (collect_participants _ _) as [x'|m'] eqn:Hrun; [discriminate|].
    intros _. by apply (collect_participants_returns _ _ m').
  - intros Hfk. destruct (get_activities_lookup s Hfk) as (m & Hm & _).
    exists m. by rewrite Hm.
  - intros x. rewrite get_activities_unfold.
    destruct (collect_participants _ _) as [x'|m] eqn:Hrun; [|discriminate].
    intros [= <-]. apply collect_participants_raises in Hrun
      as (p & Hp & Hnone & ->).
    exists p. split; [done|]. split; [|done].
    intros (r & Hr & Hname).
    assert (is_Some (collect_activities (activities s) ∅ !! activity_name p))
      as [d Hd].
    { apply collect_activities_keys. left. rewrite <- Hname.
      by apply list_elem_of_fmap_2. }
    congruence.
Qed.

Lemma get_activities_key_error_witness :
  (get_activities dangling_store).1 = inl (KeyError "Unknown Club") ∧
  ∃ p, p ∈ participants dangling_store ∧
       ¬ has_activity dangling_store (activity_name p) ∧
       KeyError "Unknown Club" = KeyError (activity_name p).
Proof.
  assert (H : (get_activities dangling_store).1 = inl (KeyError "Unknown Club"))
    by (by vm_compute).
  split; [exact H|].
  exact (proj2 (get_activities_key_error dangling_store) _ H).
Defined.

Lemma get_activities_returns_fk s (m : gmap string Details.t) :
  (get_activities s).1 = inr m → fk_participants s.
Proof.
  rewrite get_activities_unfold. intros Hm. apply fk_participants_keys.
  destruct (collect_participants _ _) as [x'|m'] eqn:Hrun; [discriminate|].
  by apply (collect_participants_returns _ _ m').
Qed.

(** An entry of the first loop comes from a row, or was there before. *)
Lemma collect_activities_entry rows (acts : gmap string Details.t) n d :
  collect_activities rows acts !! n = Some d →
  (∃ r, r ∈ rows ∧ name r = n ∧ d = entry_of r) ∨ acts !! n = Some d.
Proof.
  revert acts. induction rows as [|r rows IH]; intros acts; [by right|].
  simpl. intros Hd. apply IH in Hd as [(r' & Hr' & Hn & ->)|Hd].
  - left. exists r'. split; [by right|done].
  - destruct (decide (name r = n)) as [Hn|Hn].
    + rewrite Hn, lookup_insert_eq in Hd. injection Hd as <-.
      left. exists r. split; [left|done].
    + rewrite lookup_insert_ne in Hd by done. by right.
Qed.

Lemma emails_of_delete a e (ps : list participant_row) :
  email <$> participants_of a (filter (λ p, p ≠ ParticipantRow a e) ps) =
  filter (λ x, x ≠ e) (email <$> participants_of a ps).
Proof.
  unfold participants_of. induction ps as [|[pa pe] ps IH]; [done|].
  destruct (decide (pa = a)) as [->|Ha].
  - rewrite (filter_cons_True (λ p, activity_name p = a)) by done.
    rewrite fmap_cons. cbn [email].
    destruct (decide (pe = e)) as [->|He].
    + rewrite (filter_cons_False (λ p, p ≠ ParticipantRow a e))
        by (intros H; by apply H).
      rewrite (filter_cons_False (λ x, x ≠ e)) by (intros H; by apply H).
      apply IH.
    + rewrite (filter_cons_True (λ p, p ≠ ParticipantRow a e)) by congruence.
      rewrite (filter_cons_True (λ p, activity_name p = a)) by done.
      rewrite (filter_cons_True (λ x, x ≠ e)) by done.
      rewrite fmap_cons. cbn [email]. by rewrite IH.
  - rewrite (filter_cons_False (λ p, activity_name p = a)) by done.
    rewrite (filter_cons_True (λ p, p ≠ ParticipantRow a e)) by congruence.
    rewrite (filter_cons_False (λ p, activity_name p = a)) by done.
    apply IH.
Qed.

(** X9. After a successful signup the listing is the listing before it
    with the email appended to the participants of that activity: the
    other fields of the entry and all other entries are the same. *)
Theorem listing_after_signup (s s1 : db) (a e : string) (b : body)
    (m : gmap string Details.t) :
  signup_for_activity a e s = (inr b, s1) →
  (get_activities s).1 = inr m →
  ∃ d, m !! a = Some d ∧
       (get_activities s1).1 =
       inr (<[a := Details.Make (Details.description d) (Details.schedule d)
                     (Details.max_participants d)
                     (Details.participants d ++ [e])]> m).
Proof.
  intros Hsignup Hm. pose proof (get_activities_returns_fk s m Hm) as Hfk.
  apply signup_success in Hsignup as (r & Hfind & _ & _ & _ & ->).
  apply find_activity_Some in Hfind as [Hr Hname].
  destruct (get_activities_lookup s Hfk) as (m0 & Hm0 & Hlookup).
  rewrite Hm0 in Hm. injection Hm as ->.
  set (s1 := {| activities := activities s;
                participants := participants s ++ [ParticipantRow a e] |}).
  assert (Hfk1 : fk_participants s1).
  { intros p Hp. cbn [s1 participants activities] in *.
    apply elem_of_app in Hp as [Hp|Hp]; [by apply Hfk|].
    apply list_elem_of_singleton in Hp as ->. exists r. by split. }
  destruct (get_activities_lookup s1 Hfk1) as (m1 & Hm1 & Hlookup1).
  assert (is_Some (collect_activities (activities s) ∅ !! a)) as [x Hx].
  { apply collect_activities_keys. left. rewrite <- Hname.
    by apply list_elem_of_fmap_2. }
  eexists. split; [by rewrite Hlookup, Hx|].
  rewrite Hm1. cbn [fst]. f_equal. apply map_eq. intros n.
  rewrite Hlookup1. cbn [s1 participants activities].
  rewrite participants_of_app. unfold participants_of at 2.
  destruct (decide (a = n)) as [<-|Hn].
  - rewrite lookup_insert_eq, Hx. rewrite filter_cons_True by done.
    rewrite filter_nil, fmap_app. unfold with_emails. simpl.
    by rewrite app_assoc.
  - rewrite lookup_insert_ne by done. rewrite filter_cons_False by done.
    rewrite filter_nil, app_nil_r. by rewrite Hlookup.
Qed.

Lemma listing_after_signup_witness :
  ∃ (m : gmap string Details.t) d,
    (get_activities seeded).1 = inr m ∧
    m !! "Chess Club" = Some d ∧
    (get_activities
       (signup_for_activity "Chess Club" "new@mergington.edu" seeded).2).1 =
    inr (<["Chess Club" :=
             Details.Make (Details.description d) (Details.schedule d)
               (Details.max_participants d)
               (Details.participants d ++ ["new@mergington.edu"])]> m).
Proof.
  destruct (get_activities_lookup seeded
              (inv_fk_participants _ invariant_seeded)) as (m & Hm & _).
  assert (Hm' : (get_activities seeded).1 = inr m) by (by rewrite Hm).
  destruct (listing_after_signup seeded
              (signup_for_activity "Chess Club" "new@mergington.edu" seeded).2
              "Chess Club" "new@mergington.edu"
              (Body "Successfully signed up for Chess Club") m eq_refl Hm')
    as (d & Hd & Hlist).
  exists m, d. split; [exact Hm'|]. split; [exact Hd|exact Hlist].
Defined.

(** X10. After a successful unregistration the listing is the listing
    before it with the email removed from the participants of that
    activity: the other fields of the entry and all other entries are the
    same. *)
Theorem listing_after_unregister (s s1 : db) (a e : string) (b : body)
    (m : gmap string Details.t) :
  unregister_from_activity a e s = (inr b, s1) →
  (get_activities s).1 = inr m →
  ∃ d, m !! a = Some d ∧
       (get_activities s1).1 =
       inr (<[a := Details.Make (Details.description d) (Details.schedule d)
                     (Details.max_participants d)
                     (filter (λ x, x ≠ e) (Details.participants d))]> m).
Proof.
  intros Hun Hm. pose proof (get_activities_returns_fk s m Hm) as Hfk.
  apply unregister_success in Hun as (r & Hfind & _ & _ & ->).
  apply find_activity_Some in Hfind as [Hr Hname].
  destruct (get_activities_lookup s Hfk) as (m0 & Hm0 & Hlookup).
  rewrite Hm0 in Hm. injection Hm as ->.
  set (s1 := {| activities := activities s;
                participants :=
                  filter (λ p, p ≠ ParticipantRow a e) (participants s) |}).
  assert (Hfk1 : fk_participants s1).
  { intros p Hp. cbn [s1 participants activities] in *.
    apply list_elem_of_filter in Hp as [_ Hp]. by apply Hfk. }
  destruct (get_activities_lookup s1 Hfk1) as (m1 & Hm1 & Hlookup1).
  destruct (collect_activities (activities s) ∅ !! a) as [x|] eqn:Hx.
  2:{ assert (is_Some (collect_activities (activities s) ∅ !! a)) as [x Hx'].
      { apply collect_activities_keys. left. rewrite <- Hname.
        by apply list_elem_of_fmap_2. }
      congruence. }
  assert (Hempty : Details.participants x = []).
  { apply collect_activities_entry in Hx as [(r' & _ & _ & ->)|Hx]; [done|].
    by rewrite lookup_empty in Hx. }
  eexists. split; [by rewrite Hlookup, Hx|].
  rewrite Hm1. cbn [fst]. f_equal. apply map_eq. intros n.
  rewrite Hlookup1. cbn [s1 participants activities].
  destruct (decide (a = n)) as [<-|Hn].
  - rewrite lookup_insert_eq, Hx, emails_of_delete.
    unfold with_emails. simpl. by rewrite Hempty.
  - rewrite lookup_insert_ne by done.
    rewrite participants_of_delete_other by (simpl; congruence).
    by rewrite Hlookup.
Qed.

Lemma listing_after_unregister_witness :
  ∃ (m : gmap string Details.t) d,
    (get_activities seeded).1 = inr m ∧
    m !! "Chess Club" = Some d ∧
    (get_activities
       (unregister_from_activity "Chess Club" "daniel@mergington.edu" seeded).2).1 =
    inr (<["Chess Club" :=
             Details.Make (Details.description d) (Details.schedule d)
               (Details.max_participants d)
               (filter (λ x, x ≠ "daniel@mergington.edu")
                       (Details.participants d))]> m).
Proof.
  destruct (get_activities_lookup seeded
              (inv_fk_participants _ invariant_seeded)) as (m & Hm & _).
  assert (Hm' : (get_activities seeded).1 = inr m) by (by rewrite Hm).
  destruct (listing_after_unregister seeded
              (unregister_from_activity "Chess Club" "daniel@mergington.edu"
                 seeded).2
              "Chess Club" "daniel@mergington.edu"
              (Body "Successfully unregistered from Chess Club") m eq_refl Hm')
    as (d & Hd & Hlist).
  exists m, d. split; [exact Hm'|]. split; [exact Hd|exact Hlist].
Defined.

Lemma emails_of_unique n (ps : list participant_row) :
  NoDup ps → NoDup (email <$> participants_of n ps).
Proof.
  intros Hnd. apply NoDup_fmap_2_strong.
  - intros [pa pe] [qa qe] Hp Hq. unfold participants_of in *.
    apply list_elem_of_filter in Hp as [Hp _].
    apply list_elem_of_filter in Hq as [Hq _]. simpl in *. congruence.
  - by apply NoDup_filter.
Qed.

Lemma activity_rows_of_names items : name <$> activity_rows_of items = items.*1.
Proof.
  unfold activity_rows_of. rewrite <- list_fmap_compose.
  by apply list_fmap_ext.
Qed.

(** X11. In every reachable state the listing returns: its keys are the
    names of [INITIAL_ACTIVITIES], and no entry lists more participants
    than its max_participants or lists an email twice. *)
Theorem reachable_listing (s : db) :
  reachable s →
  ∃ m : gmap string Details.t,
    get_activities s = (inr m, s) ∧
    (∀ n, is_Some (m !! n) ↔ n ∈ INITIAL_ACTIVITIES.*1) ∧
    (∀ n d, m !! n = Some d →
       Z.of_nat (length (Details.participants d)) ≤ Details.max_participants d ∧
       NoDup (Details.participants d)).
Proof.
  intros Hs. pose proof (reachable_activities s Hs) as Hacts.
  apply reachable_invariant in Hs as [_ Hpk Hps Hfk Hcap].
  destruct (get_activities_lookup s Hfk) as (m & Hm & Hlookup).
  exists m. split; [done|]. split.
  - intros n. rewrite Hlookup, fmap_is_Some, collect_activities_keys.
    rewrite lookup_empty, Hacts, activity_rows_of_names.
    split; [intros [?|[? ?]]; done|by left].
  - intros n d. rewrite Hlookup.
    destruct (collect_activities (activities s) ∅ !! n) as [x|] eqn:Hx;
      [|discriminate].
    intros [= <-].
    apply collect_activities_entry in Hx as [(r & Hr & <- & ->)|Hx].
    2:{ by rewrite lookup_empty in Hx. }
    unfold with_emails, entry_of. simpl. split.
    + rewrite length_fmap. apply (Hcap r Hr).
    + by apply emails_of_unique.
Qed.

Lemma reachable_listing_witness :
  reachable olympiad_full ∧
  ∃ m : gmap string Details.t,
    get_activities olympiad_full = (inr m, olympiad_full) ∧
    (∀ n d, m !! n = Some d →
       Z.of_nat (length (Details.participants d)) ≤ Details.max_participants d ∧
       NoDup (Details.participants d)).
Proof.
  split; [exact reachable_olympiad_full|].
  destruct (reachable_listing olympiad_full reachable_olympiad_full)
    as (m & Hm & _ & Hrows).
  exists m. split; [exact Hm|exact Hrows].
Defined.

(** ** Further properties of the seeding *)

Lemma conn_eta (c : conn) :
  {| disk := disk c;
     txn := {| activities := activities (txn c);
               participants := participants (txn c) |} |} = c.
Proof. by destruct c as [d [acts ps]]. Qed.

Lemma participant_rows_of_cons n details items :
  participant_rows_of ((n, details) :: items) =
  ((ParticipantRow n <$> Details.participants details) ++
   participant_rows_of items)%list.
Proof. done. Qed.

(** The inner loop of [init_db] on emails that are new and distinct. *)
Lemma insert_participants_ok n (emails : list string) c :
  NoDup emails →
  (∀ e, e ∈ emails → ParticipantRow n e ∉ participants (txn c)) →
  for_each emails (λ email, insert_participant (ParticipantRow n email)) c =
  (inr tt,
   {| disk := disk c;
      txn := {| activities := activities (txn c);
                participants :=
                  participants (txn c) ++ (ParticipantRow n <$> emails) |} |}).
Proof.
  revert c. induction emails as [|e emails IH]; intros c Hnd Hnew.
  - simpl. unfold ret. by rewrite app_nil_r, conn_eta.
  - apply NoDup_cons in Hnd as [Hfresh Hnd].
    simpl. unfold bind at 1. unfold insert_participant at 1.
    rewrite bool_decide_eq_false_2 by (apply Hnew; left).
    rewrite IH; [|done|].
    + cbn [disk txn activities participants].
      by rewrite <- app_assoc.
    + intros e' He'. cbn [txn participants].
      rewrite elem_of_app, list_elem_of_singleton.
      intros [Hin|Heq].
      * revert Hin. apply Hnew. by right.
      * injection Heq as ->. done.
Qed.

(** The loop of [init_db] on items whose names and memberships are new
    and distinct. *)
Lemma populate_items_ok items c :
  NoDup items.*1 →
  (∀ n, n ∈ items.*1 → n ∉ name <$> activities (txn c)) →
  NoDup (participant_rows_of items) →
  (∀ p, p ∈ participant_rows_of items → p ∉ participants (txn c)) →
  for_each items populate_item c =
  (inr tt,
   {| disk := disk c;
      txn := {| activities := activities (txn c) ++ activity_rows_of items;
                participants :=
                  participants (txn c) ++ participant_rows_of items |} |}).
Proof.
  revert c. induction items as [|[n details] items IH];
    intros c Hnames Hfresh Hrows Hnew.
  - simpl. unfold ret, activity_rows_of, participant_rows_of. simpl.
    by rewrite !app_nil_r, conn_eta.
  - rewrite fmap_cons in Hnames, Hfresh. cbn [fst] in Hnames, Hfresh.
    apply NoDup_cons in Hnames as [Hn Hnames].
    rewrite participant_rows_of_cons in Hrows, Hnew.
    apply NoDup_app in Hrows as (Hemails & Hdisj & Hrows).
    simpl. unfold bind at 1. unfold populate_item, bind.
    unfold insert_activity at 1. cbn [name].
    rewrite bool_decide_eq_false_2 by (apply Hfresh; left).
    rewrite insert_participants_ok.
    + cbn [disk txn activities participants]. rewrite IH.
      * cbn [disk txn activities participants].
        rewrite participant_rows_of_cons. unfold activity_rows_of.
        rewrite ?fmap_cons. cbn [fst snd].
        by rewrite <- !app_assoc.
      * done.
      * intros n' Hn'. cbn [txn activities].
        rewrite fmap_app, elem_of_app. simpl.
        rewrite list_elem_of_singleton. intros [Hin|Heq].
        -- revert Hin. apply Hfresh. by right.
        -- by subst n'.
      * done.
      * intros p Hp. cbn [txn participants]. rewrite elem_of_app.
        intros [Hin|Hin].
        -- revert Hin. apply Hnew. apply elem_of_app. by right.
        -- by apply (Hdisj p).
    + apply (NoDup_fmap_1 (ParticipantRow n)). done.
    + intros e He. cbn [txn participants]. apply Hnew.
      apply elem_of_app. left. by apply list_elem_of_fmap_2.
Qed.

(** When the inner loop returns, none of its rows was there before, and
    the rows that were there are still there. *)
Lemma insert_participants_returned n (emails : list string) c c' :
  for_each emails (λ email, insert_participant (ParticipantRow n email)) c =
    (inr tt, c') →
  (∀ e, e ∈ emails → ParticipantRow n e ∉ participants (txn c)) ∧
  (∀ p, p ∈ participants (txn c) → p ∈ participants (txn c')).
Proof.
  revert c. induction emails as [|e emails IH]; intros c.
  - simpl. intros [= <-]. split; [|done]. intros e He.
    by apply elem_of_nil in He.
  - simpl. unfold bind at 1. unfold insert_participant at 1.
    case_bool_decide as Hin; [discriminate|].
    intros Hrest. apply IH in Hrest as [Hnew Hkept].
    cbn [txn participants] in *. split.
    + intros e' He'. apply elem_of_cons in He' as [->|He']; [done|].
      intros Hp. apply (Hnew e' He'). apply elem_of_app. by left.
    + intros p Hp. apply Hkept. apply elem_of_app. by left.
Qed.

(** The same for the loop over the items. *)
Lemma populate_items_returned items c c' :
  for_each items populate_item c = (inr tt, c') →
  (∀ p, p ∈ participant_rows_of items → p ∉ participants (txn c)) ∧
  (∀ p, p ∈ participants (txn c) → p ∈ participants (txn c')).
Proof.
  revert c. induction items as [|[n details] items IH]; intros c.
  - simpl. intros [= <-]. split; [|done]. intros p Hp.
    by apply elem_of_nil in Hp.
  - simpl. unfold bind at 1. unfold populate_item, bind.
    unfold insert_activity at 1. case_bool_decide as Hname; [discriminate|].
    destruct (for_each (Details.participants details) _ _)
      as [[x|[]] c1] eqn:Hinner; [discriminate|].
    apply insert_participants_returned in Hinner as [Hnew1 Hkept1].
    cbn [txn participants] in *.
    intros Hrest. apply IH in Hrest as [Hnew Hkept]. split.
    + intros p. rewrite participant_rows_of_cons, elem_of_app.
      intros [Hp|Hp].
      * apply list_elem_of_fmap in Hp as (e & -> & He). by apply Hnew1.
      * intros Hin. apply (Hnew p Hp). by apply Hkept1.
    + intros p Hp. by apply Hkept, Hkept1.
Qed.

(** The loop of [init_db] raises nothing but [IntegrityError]. *)
Lemma populate_items_raised items c x c' :
  for_each items populate_item c = (inl x, c') → ∃ msg, x = IntegrityError msg.
Proof.
  revert c. induction items as [|[n details] items IH]; intros c; [done|].
  cbn [for_each]. unfold bind at 1.
  destruct (populate_item (n, details) c) as [[x1|[]] c1] eqn:Hitem.
  - intros [= <- <-]. revert Hitem. unfold populate_item, bind.
    unfold insert_activity at 1. case_bool_decide.
    + intros [= <- _]. eauto.
    + generalize (Details.participants details) as emails.
      intros emails. match goal with |- context [for_each emails ?body ?c0] =>
        generalize c0 end.
      induction emails as [|e emails IHe]; intros c0; [done|].
      simpl. unfold bind at 1. unfold insert_participant at 1.
      case_bool_decide; [intros [= <- _]; eauto|]. apply IHe.
  - apply IH.
Qed.

Lemma init_db_created f : init_db f = get_db populate (created f).
Proof. done. Qed.

(** X12. [init_db] on a file without activities (table absent or empty)
    whose memberships, if any, are none of the seed: it answers normally,
    the activities are the rows of [INITIAL_ACTIVITIES] in their order,
    and the seed's memberships are appended to those of the file. *)
Theorem init_db_seeds_empty_store (f : db_file) :
  activities (created f) = [] →
  (∀ p, p ∈ participant_rows_of INITIAL_ACTIVITIES → p ∉ participants (created f)) →
  init_db f =
    (inr tt,
     {| activities := activity_rows_of INITIAL_ACTIVITIES;
        participants :=
          participants (created f) ++ participant_rows_of INITIAL_ACTIVITIES |}).
Proof.
  intros Hempty Hnew. rewrite init_db_created. unfold get_db.
  rewrite populate_unfold. cbn [txn disk]. rewrite Hempty.
  rewrite bool_decide_eq_true_2 by done.
  rewrite populate_items_ok.
  - cbn [txn disk activities participants]. by rewrite Hempty.
  - apply (bool_decide_unpack _). by vm_compute.
  - intros n _. cbn [txn]. rewrite Hempty. apply not_elem_of_nil.
  - apply (bool_decide_unpack _). by vm_compute.
  - done.
Qed.

Lemma init_db_seeds_empty_store_witness :
  activities (created stale_file) = [] ∧
  (∀ p, p ∈ participant_rows_of INITIAL_ACTIVITIES →
        p ∉ participants (created stale_file)) ∧
  init_db stale_file =
    (inr tt,
     {| activities := activity_rows_of INITIAL_ACTIVITIES;
        participants :=
          ParticipantRow "Chess Club" "old@mergington.edu"
          :: participant_rows_of INITIAL_ACTIVITIES |}).
Proof.
  assert (Hnew : ∀ p, p ∈ participant_rows_of INITIAL_ACTIVITIES →
                      p ∉ participants (created stale_file)).
  { apply Forall_forall. apply (bool_decide_unpack _). by vm_compute. }
  split; [reflexivity|]. split; [exact Hnew|].
  exact (init_db_seeds_empty_store stale_file eq_refl Hnew).
Defined.

(** X13. [init_db] on a file without activities that holds one of the
    seed's memberships: an INSERT is refused, [init_db] raises
    [IntegrityError], and nothing of the seed is stored, the rows
    inserted before the refusal included. *)
Theorem init_db_clash_stores_nothing (f : db_file) (p : participant_row) :
  activities (created f) = [] →
  p ∈ participant_rows_of INITIAL_ACTIVITIES → p ∈ participants (created f) →
  ∃ msg, init_db f = (inl (IntegrityError msg), created f).
Proof.
  intros Hempty Hseed Hstored. rewrite init_db_created.
  destruct (populate_empty (created f) Hempty) as [[x Hx]|(d' & Hd' & _)].
  - rewrite Hx. revert Hx. unfold get_db. rewrite populate_unfold.
    cbn [txn disk]. rewrite Hempty, bool_decide_eq_true_2 by done.
    destruct (for_each INITIAL_ACTIVITIES populate_item _)
      as [[x'|[]] c'] eqn:Hloop; [|discriminate].
    intros [= -> _]. apply populate_items_raised in Hloop as [msg ->]. eauto.
  - exfalso. revert Hd'. unfold get_db. rewrite populate_unfold.
    cbn [txn disk]. rewrite Hempty, bool_decide_eq_true_2 by done.
    destruct (for_each INITIAL_ACTIVITIES populate_item _)
      as [[x'|[]] c'] eqn:Hloop; [discriminate|].
    intros _. apply populate_items_returned in Hloop as [Hnew _].
    by apply (Hnew p Hseed).
Qed.

Lemma init_db_clash_stores_nothing_witness :
  activities (created leftover_file) = [] ∧
  ParticipantRow "Gym Class" "john@mergington.edu"
    ∈ participant_rows_of INITIAL_ACTIVITIES ∧
  ParticipantRow "Gym Class" "john@mergington.edu"
    ∈ participants (created leftover_file) ∧
  ∃ msg, init_db leftover_file = (inl (IntegrityError msg), created leftover_file).
Proof.
  assert (Hseed : ParticipantRow "Gym Class" "john@mergington.edu"
                    ∈ participant_rows_of INITIAL_ACTIVITIES)
    by (apply (bool_decide_unpack _); by vm_compute).
  assert (Hstored : ParticipantRow "Gym Class" "john@mergington.edu"
                      ∈ participants (created leftover_file))
    by (apply (bool_decide_unpack _); by vm_compute).
  split; [reflexivity|]. split; [exact Hseed|]. split; [exact Hstored|].
  exact (init_db_clash_stores_nothing leftover_file _ eq_refl Hseed Hstored).
Defined.

(** ** Signups in a row *)

Lemma signup_new a e r s :
  pk_activities s → r ∈ activities s → name r = a →
  membership_count s a < max_participants r →
  ParticipantRow a e ∉ participants s →
  signup_for_activity a e s =
    (inr (Body ("Successfully signed up for " +:+ a)),
     {| activities := activities s;
        participants := participants s ++ [ParticipantRow a e] |}).
Proof.
  intros Hpk Hr Hname Hfree Hnew. rewrite signup_run.
  rewrite (find_activity_pk s a r Hpk Hr Hname).
  rewrite bool_decide_eq_false_2 by lia.
  by rewrite bool_decide_eq_false_2.
Qed.

(** X14. Signups of distinct, unregistered emails for one activity, no
    more than it has free places: each one succeeds on the store the
    previous ones left, the store gains their rows in order, and if they
    took the last place, any further signup for the activity answers 400
    "Activity is full" and changes nothing. *)
Theorem signups_within_capacity (s : db) (a : string) (r : activity_row)
    (emails : list string) :
  pk_activities s → r ∈ activities s → name r = a →
  NoDup emails →
  (∀ e, e ∈ emails → ParticipantRow a e ∉ participants s) →
  membership_count s a + Z.of_nat (length emails) ≤ max_participants r →
  (∀ i e, emails !! i = Some e →
     (signup_for_activity a e (signups a (take i emails) s)).1 =
     inr (Body ("Successfully signed up for " +:+ a))) ∧
  signups a emails s =
    {| activities := activities s;
       participants := participants s ++ (ParticipantRow a <$> emails) |} ∧
  (membership_count s a + Z.of_nat (length emails) = max_participants r →
   ∀ e', signup_for_activity a e' (signups a emails s) =
         (inl (HTTPException 400 "Activity is full"), signups a emails s)).
Proof.
  revert s. induction emails as [|e emails IH];
    intros s Hpk Hr Hname Hnd Hnew Hfree.
  - split; [intros i e Hi; by rewrite lookup_nil in Hi|].
    simpl. rewrite app_nil_r, db_eta. split; [done|].
    intros Hfull e'. rewrite signup_run.
    rewrite (find_activity_pk s a r Hpk Hr Hname).
    rewrite bool_decide_eq_true_2; [done|]. simpl in Hfull. lia.
  - apply NoDup_cons in Hnd as [Hfresh Hnd].
    cbn [length] in Hfree.
    assert (Hlt : membership_count s a < max_participants r)
      by (clear -Hfree; lia).
    assert (Hfirst : signup_for_activity a e s =
      (inr (Body ("Successfully signed up for " +:+ a)),
       {| activities := activities s;
          participants := participants s ++ [ParticipantRow a e] |})).
    { apply (signup_new a e r); [done..|]. apply Hnew. left. }
    set (s1 := {| activities := activities s;
                  participants := participants s ++ [ParticipantRow a e] |}).
    assert (Hcount : membership_count s1 a = membership_count s a + 1).
    { unfold s1. rewrite membership_count_insert. by rewrite decide_True. }
    assert (Hfree1 : membership_count s1 a + Z.of_nat (length emails)
                     ≤ max_participants r) by (clear -Hfree Hcount; lia).
    assert (Hnew1 : ∀ e', e' ∈ emails → ParticipantRow a e' ∉ participants s1).
    { intros e' He'. cbn [s1 participants].
      rewrite elem_of_app, list_elem_of_singleton. intros [Hin|Heq].
      - revert Hin. apply Hnew. by right.
      - injection Heq as ->. done. }
    destruct (IH s1 Hpk Hr Hname Hnd Hnew1 Hfree1) as (Heach & Hstate & Hfull).
    clear IH.
    assert (Hstep : signups a (e :: emails) s = signups a emails s1).
    { unfold signups. simpl. by rewrite Hfirst. }
    split; [|split].
    + intros [|i] e' Hi.
      * injection Hi as <-. simpl. by rewrite Hfirst.
      * simpl in Hi. specialize (Heach i e' Hi).
        cbn [take]. unfold signups in *. simpl. by rewrite Hfirst.
    + rewrite Hstep, Hstate. cbn [s1 activities participants].
      by rewrite <- app_assoc.
    + intros Hlast e'. rewrite Hstep. apply Hfull.
      cbn [length] in Hlast. clear -Hlast Hcount. lia.
Qed.

Lemma signups_within_capacity_witness :
  pk_activities seeded ∧ olympiad ∈ activities seeded ∧
  NoDup ["s3@mergington.edu"; "s4@mergington.edu"; "s5@mergington.edu";
         "s6@mergington.edu"; "s7@mergington.edu"; "s8@mergington.edu";
         "s9@mergington.edu"; "s10@mergington.edu"] ∧
  signup_for_activity "Math Olympiad" "late@mergington.edu"
    (signups "Math Olympiad"
       ["s3@mergington.edu"; "s4@mergington.edu"; "s5@mergington.edu";
        "s6@mergington.edu"; "s7@mergington.edu"; "s8@mergington.edu";
        "s9@mergington.edu"; "s10@mergington.edu"] seeded) =
  (inl (HTTPException 400 "Activity is full"),
   signups "Math Olympiad"
       ["s3@mergington.edu"; "s4@mergington.edu"; "s5@mergington.edu";
        "s6@mergington.edu"; "s7@mergington.edu"; "s8@mergington.edu";
        "s9@mergington.edu"; "s10@mergington.edu"] seeded).
Proof.
  set (emails := ["s3@mergington.edu"; "s4@mergington.edu"; "s5@mergington.edu";
                  "s6@mergington.edu"; "s7@mergington.edu"; "s8@mergington.edu";
                  "s9@mergington.edu"; "s10@mergington.edu"]).
  assert (Hr : olympiad ∈ activities seeded)
    by (apply (bool_decide_unpack _); by vm_compute).
  assert (Hnd : NoDup emails) by (apply (bool_decide_unpack _); by vm_compute).
  assert (Hnew : ∀ e, e ∈ emails →
                      ParticipantRow "Math Olympiad" e ∉ participants seeded).
  { apply Forall_forall. apply (bool_decide_unpack _). by vm_compute. }
  assert (Hfree : membership_count seeded "Math Olympiad"
                  + Z.of_nat (length emails) ≤ max_participants olympiad)
    by (by vm_compute).
  split; [exact pk_activities_seeded|]. split; [exact Hr|].
  split; [exact Hnd|].
  destruct (signups_within_capacity seeded "Math Olympiad" olympiad emails
              pk_activities_seeded Hr eq_refl Hnd Hnew Hfree)
    as (_ & _ & Hfull).
  apply Hfull. by vm_compute.
Defined.
